(** * SelectPicker: a shallow embedding of [src/SelectPicker/SelectPicker.tsx]

    The component is a React function component.  Its event handlers are
    embedded as computations in a small state-and-exception monad over a
    [Store] holding the hook state cells, the array objects reachable from
    the component, and the trace of the calls the handlers make to their
    collaborators (state setters, caller-supplied callbacks, imperative
    handles). *)

From stdpp Require Import gmap strings list sorting.
From Stdlib Require Import ZArith Ascii.

Open Scope Z_scope.
Open Scope string_scope.
Open Scope list_scope.

(** ** JavaScript values *)

(** The values that flow through the component: option values
    ([T extends number | string], possibly [null] or [undefined]) and the
    React nodes used as labels, placeholders and custom renderings.
    Numbers are option identifiers and are modelled as integers; a React
    element is an opaque object. *)
Inductive JSVal : Type :=
| VUndefined
| VNull
| VBool (b : bool)
| VNum (n : Z)
| VStr (s : string)
| VElem (id : nat).

#[global] Instance JSVal_eq_dec : EqDecision JSVal.
Proof. solve_decision. Defined.

(** lodash [isNil]: [null] or [undefined]. *)
Definition isNil (v : JSVal) : bool :=
  match v with
  | VUndefined | VNull => true
  | _ => false
  end.

(** JavaScript truthiness, as used by [!x], [if (x)] and [x || y]. *)
Definition truthy (v : JSVal) : bool :=
  match v with
  | VUndefined | VNull => false
  | VBool b => b
  | VNum n => negb (Z.eqb n 0)
  | VStr s => negb (String.eqb s EmptyString)
  | VElem _ => true
  end.

(** [a || b] *)
Definition js_or (a b : JSVal) : JSVal := if truthy a then a else b.

(** ** Options *)

(** [ItemDataType]: an object used as a record of fields. *)
Abbreviation Item := (gmap string JSVal).

(** [item[key]]: a missing property reads as [undefined]. *)
Definition item_get (item : Item) (key : string) : JSVal :=
  default VUndefined (item !! key).

(** [item?.[key]] on a possibly undefined item. *)
Definition opt_get (item : option Item) (key : string) : JSVal :=
  match item with
  | Some it => item_get it key
  | None => VUndefined
  end.

(** Modelled from the spec: [shallowEqual] of [../utils] is not part of the
    sources; on the primitive values used as option identities it is the
    spec's "equality of the configured value field". *)
Definition shallowEqual (a b : JSVal) : bool := bool_decide (a = b).

(** ** Calls observed from outside the component *)

Definition Event := nat.

Inductive Effect : Type :=
| ESetValue (v : JSVal)
| ESetFocusItemValue (v : JSVal)
| ESetSearchKeyword (kw : string)
| ESetFilteredData (arr : nat)
| ESetActive (b : bool)
| EOnSelect (v : JSVal) (item : option Item) (ev : Event)
| EOnChange (v : JSVal) (ev : Event)
| EOnSearch (kw : string) (ev : Event)
| EOnOpen
| EOnClose
| ERenderValue (v : JSVal) (item : option Item) (selectedElement : JSVal)
| ETriggerClose
| ETargetFocus.

(** [f?.(args)]: the call is made only when the callback was supplied. *)
Definition opt (supplied : bool) (e : Effect) : list Effect :=
  if supplied then [e] else [].

(** ** The store *)

(** Array objects live in a heap and are named by their location, so that
    two names of one array see each other's in-place updates. *)
Definition loc := nat.

Record Store : Type := mkStore {
  heap : gmap loc (list Item);
  uncontrolledValue : JSVal;     (* useControlled: internal value cell *)
  focusItemValue : JSVal;        (* useFocusItemValue *)
  searchKeyword : string;        (* useSearch *)
  filteredData : loc;            (* useSearch: the filtered array *)
  active : bool;                 (* useState(false) *)
  triggerRef : bool;             (* triggerRef.current is attached *)
  targetRef : bool;              (* targetRef.current is attached *)
  trace : list Effect
}.

Definition deref (h : gmap loc (list Item)) (l : loc) : list Item :=
  default [] (h !! l).

Definition with_heap (h : gmap loc (list Item)) (st : Store) : Store :=
  mkStore h (uncontrolledValue st) (focusItemValue st) (searchKeyword st)
          (filteredData st) (active st) (triggerRef st) (targetRef st) (trace st).

Definition with_uncontrolledValue (v : JSVal) (st : Store) : Store :=
  mkStore (heap st) v (focusItemValue st) (searchKeyword st)
          (filteredData st) (active st) (triggerRef st) (targetRef st) (trace st).

Definition with_focusItemValue (v : JSVal) (st : Store) : Store :=
  mkStore (heap st) (uncontrolledValue st) v (searchKeyword st)
          (filteredData st) (active st) (triggerRef st) (targetRef st) (trace st).

Definition with_searchKeyword (kw : string) (st : Store) : Store :=
  mkStore (heap st) (uncontrolledValue st) (focusItemValue st) kw
          (filteredData st) (active st) (triggerRef st) (targetRef st) (trace st).

Definition with_filteredData (l : loc) (st : Store) : Store :=
  mkStore (heap st) (uncontrolledValue st) (focusItemValue st) (searchKeyword st)
          l (active st) (triggerRef st) (targetRef st) (trace st).

Definition with_active (b : bool) (st : Store) : Store :=
  mkStore (heap st) (uncontrolledValue st) (focusItemValue st) (searchKeyword st)
          (filteredData st) b (triggerRef st) (targetRef st) (trace st).

Definition with_trace (t : list Effect) (st : Store) : Store :=
  mkStore (heap st) (uncontrolledValue st) (focusItemValue st) (searchKeyword st)
          (filteredData st) (active st) (triggerRef st) (targetRef st) t.

(** ** The handler monad: state threading, and a thrown exception stops
    the handler. *)

Inductive Res (A : Type) : Type :=
| Ok (a : A) (st : Store)
| Throw (err : string) (st : Store).
Arguments Ok {A} a st.
Arguments Throw {A} err st.

Definition M (A : Type) : Type := Store -> Res A.

Definition ret {A} (a : A) : M A := fun st => Ok a st.

Definition bind {A B} (m : M A) (k : A -> M B) : M B :=
  fun st =>
    match m st with
    | Ok a st' => k a st'
    | Throw e st' => Throw e st'
    end.

Definition throw {A} (err : string) : M A := fun st => Throw err st.

Definition get : M Store := fun st => Ok st st.

Definition modify (f : Store -> Store) : M unit := fun st => Ok tt (f st).

Notation "x <- c ;; k" := (bind c (fun x => k))
  (at level 100, c at next level, right associativity).
Notation "c ;; k" := (bind c (fun _ => k))
  (at level 100, right associativity).

Definition emit (e : Effect) : M unit :=
  modify (fun st => with_trace (trace st ++ [e]) st).

Definition emit_opt (supplied : bool) (e : Effect) : M unit :=
  if supplied then emit e else ret tt.

(** The final store of a run, and whether it returned normally. *)
Definition store_of {A} (r : Res A) : Store :=
  match r with Ok _ st => st | Throw _ st => st end.

Definition returns {A} (r : Res A) : bool :=
  match r with Ok _ _ => true | Throw _ _ => false end.

(** A fresh array object. *)
Definition alloc (items : list Item) : M loc :=
  fun st =>
    let l := fresh (dom (heap st)) in
    Ok l (with_heap (<[l := items]> (heap st)) st).

(** [Array.prototype.sort(compare)]: a stable sort, [compare a b <= 0]
    keeping [a] before [b]. *)
Fixpoint sort_insert {A} (compare : A -> A -> Z) (x : A) (l : list A) : list A :=
  match l with
  | [] => [x]
  | y :: r => if Z.leb (compare x y) 0 then x :: y :: r
              else y :: sort_insert compare x r
  end.

Definition js_sort {A} (compare : A -> A -> Z) (l : list A) : list A :=
  foldr (sort_insert compare) [] l.

(** [arr.sort(compare)] sorts the array object itself and returns it. *)
Definition array_sort (l : loc) (compare : Item -> Item -> Z) : M loc :=
  modify (fun st => with_heap (alter (js_sort compare) l (heap st)) st) ;;
  ret l.

(** ** Props (after destructuring, defaults applied) *)

(** What a [sort(isGroup)] comparator is applied to: options, or the group
    nodes of a grouped menu. *)
Inductive MenuNode : Type :=
| ItemNode (item : Item)
| GroupNode (groupTitle : JSVal) (children : list Item).

Record Props : Type := mkProps {
  data : loc;
  valueKey : string;
  labelKey : string;
  valueProp : JSVal;             (* [value]; [undefined] when not supplied *)
  placeholder : JSVal;
  locale_placeholder : JSVal;    (* [locale?.placeholder] *)
  disabled : bool;
  cleanable : bool;
  groupBy : option string;
  searchBy : option (string -> JSVal -> Item -> bool);
  sort : option (bool -> MenuNode -> MenuNode -> Z);
  renderValue : option (JSVal -> option Item -> JSVal -> JSVal);
  onChange : bool;               (* the callbacks: supplied or not *)
  onSelect : bool;
  onSearch : bool;
  onOpen : bool;
  onClose : bool
}.

(** ** Hooks *)

(** Modelled from the spec: [useControlled] of [../utils] is not part of the
    sources.  "If the caller supplies an external value, the setter becomes
    a no-op passthrough [...]; otherwise the setter updates internal state
    directly." *)
Definition isControlled (p : Props) : bool :=
  negb (bool_decide (valueProp p = VUndefined)).

Definition value (p : Props) (st : Store) : JSVal :=
  if isControlled p then valueProp p else uncontrolledValue st.

Definition setValue (p : Props) (v : JSVal) : M unit :=
  emit (ESetValue v) ;;
  if isControlled p then ret tt else modify (with_uncontrolledValue v).

(** Modelled from the spec: [useFocusItemValue] of [../Picker] is not part
    of the sources; its [setFocusItemValue] is the setter of the
    FocusedValue cell. *)
Definition setFocusItemValue (v : JSVal) : M unit :=
  emit (ESetFocusItemValue v) ;;
  modify (with_focusItemValue v).

(** Modelled from the spec: [useSearch] of [../Picker] is not part of the
    sources; [setSearchKeyword] and the filtered array are its state. *)
Definition setSearchKeyword (kw : string) : M unit :=
  emit (ESetSearchKeyword kw) ;;
  modify (with_searchKeyword kw).

Definition setFilteredData (l : loc) : M unit :=
  emit (ESetFilteredData l) ;;
  modify (with_filteredData l).

Definition setActive (b : bool) : M unit :=
  emit (ESetActive b) ;;
  modify (with_active b).

(** [data.find(item => shallowEqual(item[valueKey], v))] *)
Definition find_item (p : Props) (st : Store) (v : JSVal) : option Item :=
  List.find (fun item => shallowEqual (item_get item (valueKey p)) v)
            (deref (heap st) (data p)).

(** ** The handlers of SelectPicker.tsx

    A handler closes over the values of the render that created it: it
    reads them from the store [c] it is entered with, whatever it has
    written since. *)

(** The [callback] given to [useSearch] (lines 192-200);
    [filteredData?.[0]?.[valueKey]]. *)
Definition searchCallback (p : Props) (searchKeyword : string)
    (filteredData : option loc) (event : Event) : M unit :=
  c <- get ;;
  let first := match filteredData with
               | Some l => head (deref (heap c) l)
               | None => None
               end in
  setFocusItemValue (opt_get first (valueKey p)) ;;
  emit_opt (onSearch p) (EOnSearch searchKeyword event).

Definition handleClose : M unit :=
  c <- get ;;
  emit_opt (triggerRef c) ETriggerClose.

Definition handleSelect (p : Props) (v : JSVal) (item : option Item)
    (event : Event) : M unit :=
  emit_opt (onSelect p) (EOnSelect v item event) ;;
  c <- get ;;
  emit_opt (targetRef c) ETargetFocus.

Definition handleChangeValue (p : Props) (v : JSVal) (event : Event) : M unit :=
  emit_opt (onChange p) (EOnChange v event).

Definition handleMenuPressEnter (p : Props) (event : Event) : M unit :=
  c <- get ;;
  if negb (truthy (focusItemValue c)) then ret tt
  else
    let focusItem := find_item p c (focusItemValue c) in
    setValue p (focusItemValue c) ;;
    handleSelect p (focusItemValue c) focusItem event ;;
    handleChangeValue p (focusItemValue c) event ;;
    handleClose.

Definition handleItemSelect (p : Props) (v : JSVal) (item : Item)
    (event : Event) : M unit :=
  setValue p v ;;
  setFocusItemValue v ;;
  handleSelect p v (Some item) event ;;
  handleChangeValue p v event ;;
  handleClose.

Definition handleClean (p : Props) (event : Event) : M unit :=
  c <- get ;;
  if disabled p || negb (cleanable p) then ret tt
  else
    setValue p VNull ;;
    setFocusItemValue (value p c) ;;
    handleChangeValue p VNull event.

(** The [onClose] given to [useToggleKeyDownEvent] (lines 280-282). *)
Definition toggleKeyDown_onClose : M unit :=
  setFocusItemValue VNull.

Definition handleExited (p : Props) : M unit :=
  setSearchKeyword EmptyString ;;
  setActive false ;;
  emit_opt (onClose p) EOnClose.

Definition handleEntered (p : Props) : M unit :=
  c <- get ;;
  setActive true ;;
  setFocusItemValue (value p c) ;;
  emit_opt (onOpen p) EOnOpen.

(** ** Rendering the toggle (lines 300-323 and 421) *)

Definition isFunction {A} (f : option A) : bool :=
  match f with Some _ => true | None => false end.

Definition isDefined {A} (o : option A) : bool :=
  match o with Some _ => true | None => false end.

(** [item[key]] on a possibly undefined item: reading a property of
    [undefined] throws. *)
Definition get_prop (item : option Item) (key : string) : M JSVal :=
  match item with
  | Some it => ret (item_get it key)
  | None => throw "TypeError"
  end.

Record ToggleView : Type := mkToggleView {
  hasValue : bool;               (* passed to usePickerClassName and PickerToggle *)
  selectedElement : JSVal;
  toggleChildren : JSVal         (* [selectedElement || locale?.placeholder] *)
}.

(** [data.find(item => shallowEqual(item[valueKey], value))] *)
Definition activeItem (p : Props) (st : Store) : option Item :=
  find_item p st (value p st).

Definition renderToggle (p : Props) : M ToggleView :=
  c <- get ;;
  let activeItem := activeItem p c in
  let hasValue :=
    isDefined activeItem || (negb (isNil (value p c)) && isFunction (renderValue p)) in
  let selectedElement := placeholder p in
  selectedElement <-
    (if truthy (opt_get activeItem (labelKey p))
     then get_prop activeItem (labelKey p)
     else ret selectedElement) ;;
  r <- match renderValue p with
       | Some render =>
           if negb (isNil (value p c)) then
             emit (ERenderValue (value p c) activeItem selectedElement) ;;
             let selectedElement := render (value p c) activeItem selectedElement in
             ret (selectedElement, if isNil selectedElement then false else hasValue)
           else ret (selectedElement, hasValue)
       | None => ret (selectedElement, hasValue)
       end ;;
  ret (mkToggleView (snd r) (fst r) (js_or (fst r) (locale_placeholder p))).

(** ** Rendering the menu (lines 325-336) *)

(** [if (groupBy)]: an empty field name is falsy. *)
Definition groupBy_set (p : Props) : option string :=
  match groupBy p with
  | Some g => if String.eqb g EmptyString then None else Some g
  | None => None
  end.

Fixpoint group_insert (title : JSVal) (item : Item)
    (groups : list (JSVal * list Item)) : list (JSVal * list Item) :=
  match groups with
  | [] => [(title, [item])]
  | (t, members) :: rest =>
      if bool_decide (t = title) then (t, members ++ [item]) :: rest
      else (t, members) :: group_insert title item rest
  end.

(** Modelled from the spec: [getDataGroupBy] of [../utils] is not part of
    the sources.  "Top-level group nodes (one per distinct value of the
    grouping field, in first-seen order unless a comparator reorders
    groups) each containing the matching options"; it builds its result
    from the contents of the list it is given. *)
Definition getDataGroupBy (items : list Item) (key : string)
    (sort : option (bool -> MenuNode -> MenuNode -> Z)) : list MenuNode :=
  let groups :=
    foldl (fun gs item => group_insert (item_get item key) item gs) [] items in
  match sort with
  | Some s =>
      js_sort (s true)
        (map (fun g => GroupNode (fst g)
                (js_sort (fun a b => s false (ItemNode a) (ItemNode b)) (snd g)))
             groups)
  | None => map (fun g => GroupNode (fst g) (snd g)) groups
  end.

(** What the menu is given as [data]: the array named [items], or the
    grouped tree. *)
Inductive MenuData : Type :=
| FlatData (items : loc)
| GroupedData (groups : list MenuNode).

Definition renderDropdownMenu (p : Props) : M MenuData :=
  c <- get ;;
  let items := filteredData c in
  match groupBy_set p with
  | Some g => ret (GroupedData (getDataGroupBy (deref (heap c) items) g (sort p)))
  | None =>
      match sort p with
      | Some s =>
          items <- array_sort items (fun a b => s false (ItemNode a) (ItemNode b)) ;;
          ret (FlatData items)
      | None => ret (FlatData items)
      end
  end.

(** ** The search hook *)

Section SearchHook.

(** The default matching rule of [useSearch] ([shouldDisplay], a
    case-insensitive substring match of the keyword in the label) is not
    part of the sources; the development holds for any rule. *)
Variable shouldDisplay : JSVal -> string -> bool.

Definition checkShouldDisplay (p : Props) (keyword : string) (item : Item) : bool :=
  match searchBy p with
  | Some f => f keyword (item_get item (labelKey p)) item
  | None => shouldDisplay (item_get item (labelKey p)) keyword
  end.

(** Modelled from the spec: [useSearch] of [../Picker] is not part of
    the sources.  "Given the full OptionList and a keyword, returns the
    subsequence of options whose label [...] matches.  Recomputes on
    every keyword change [...].  Side effect: [...] FocusedValue updates
    [...] and the external search-notification callback is invoked":
    the hook filters [data] into a new array, stores it and the keyword,
    and calls [callback]. *)
Definition handleSearch (p : Props) (keyword : string) (event : Event) : M unit :=
  c <- get ;;
  l <- alloc (List.filter (checkShouldDisplay p keyword)
                          (deref (heap c) (data p))) ;;
  setFilteredData l ;;
  setSearchKeyword keyword ;;
  searchCallback p keyword (Some l) event.



End SearchHook.





(** ** What a run adds to the trace *)

Definition emitted {A} (m : M A) (st : Store) : list Effect :=
  drop (length (trace st)) (trace (store_of (m st))).

(** The caller-supplied notification callbacks among the effects. *)
Definition is_callback (e : Effect) : bool :=
  match e with
  | EOnSelect _ _ _ | EOnChange _ _ | EOnSearch _ _ | EOnOpen | EOnClose => true
  | _ => false
  end.

(** ** A running example: the scenario of the spec *)

Definition item_one : Item := {[ "value" := VNum 1; "label" := VStr "One" ]}.
Definition item_two : Item := {[ "value" := VNum 2; "label" := VStr "Two" ]}.
Definition item_zero : Item := {[ "value" := VNum 0; "label" := VStr "Zero" ]}.

Definition ex_props : Props :=
  {| data := 0%nat; valueKey := "value"; labelKey := "label";
     valueProp := VUndefined;
     placeholder := VStr "Pick"; locale_placeholder := VStr "Select";
     disabled := false; cleanable := true;
     groupBy := None; searchBy := None; sort := None; renderValue := None;
     onChange := true; onSelect := true; onSearch := true;
     onOpen := true; onClose := true |}.

(** The overlay is open, option 1 is selected and option 2 is focused. *)
Definition ex_store : Store :=
  {| heap := {[ 0%nat := [item_one; item_two]; 1%nat := [item_one; item_two] ]};
     uncontrolledValue := VNum 1; focusItemValue := VNum 2;
     searchKeyword := EmptyString; filteredData := 1%nat; active := true;
     triggerRef := true; targetRef := true; trace := [] |}.

Definition ex_props_disabled : Props :=
  {| data := 0%nat; valueKey := "value"; labelKey := "label";
     valueProp := VUndefined;
     placeholder := VStr "Pick"; locale_placeholder := VStr "Select";
     disabled := true; cleanable := true;
     groupBy := None; searchBy := None; sort := None; renderValue := None;
     onChange := true; onSelect := true; onSearch := true;
     onOpen := true; onClose := true |}.

(** Nothing is focused: the keyword matched no option. *)
Definition ex_store_nofocus : Store :=
  {| heap := {[ 0%nat := [item_one; item_two]; 1%nat := [] ]};
     uncontrolledValue := VNum 1; focusItemValue := VUndefined;
     searchKeyword := "xyz"; filteredData := 1%nat; active := true;
     triggerRef := true; targetRef := true; trace := [] |}.

(** The option whose value is the number 0 is focused. *)
Definition ex_store_zero : Store :=
  {| heap := {[ 0%nat := [item_zero; item_one]; 1%nat := [item_zero; item_one] ]};
     uncontrolledValue := VNum 1; focusItemValue := VNum 0;
     searchKeyword := EmptyString; filteredData := 1%nat; active := true;
     triggerRef := true; targetRef := true; trace := [] |}.

(** The focused value 2 is no longer among the options. *)
Definition ex_store_unmatched : Store :=
  {| heap := {[ 0%nat := [item_one]; 1%nat := [item_one; item_two] ]};
     uncontrolledValue := VNum 1; focusItemValue := VNum 2;
     searchKeyword := EmptyString; filteredData := 1%nat; active := true;
     triggerRef := true; targetRef := true; trace := [] |}.

(** A custom renderer that returns [null]. *)
Definition ex_props_render_null : Props :=
  {| data := 0%nat; valueKey := "value"; labelKey := "label";
     valueProp := VUndefined;
     placeholder := VStr "Pick"; locale_placeholder := VStr "Select";
     disabled := false; cleanable := true;
     groupBy := None; searchBy := None; sort := None;
     renderValue := Some (fun _ _ _ => VNull);
     onChange := true; onSelect := true; onSearch := true;
     onOpen := true; onClose := true |}.

(** [sort = () => (a, b) => a.value - b.value] *)
Definition by_value (isGroup : bool) (a b : MenuNode) : Z :=
  match a, b with
  | ItemNode x, ItemNode y =>
      match item_get x "value", item_get y "value" with
      | VNum m, VNum n => m - n
      | _, _ => 0
      end
  | _, _ => 0
  end.

Definition ex_props_sort : Props :=
  {| data := 0%nat; valueKey := "value"; labelKey := "label";
     valueProp := VUndefined;
     placeholder := VStr "Pick"; locale_placeholder := VStr "Select";
     disabled := false; cleanable := true;
     groupBy := None; searchBy := None; sort := Some by_value;
     renderValue := None;
     onChange := true; onSelect := true; onSearch := true;
     onOpen := true; onClose := true |}.

(** [data = [two, one]], and the filtered array of the state holds the
    options in the same order. *)
Definition ex_store_unsorted : Store :=
  {| heap := {[ 0%nat := [item_two; item_one]; 1%nat := [item_two; item_one] ]};
     uncontrolledValue := VUndefined; focusItemValue := VUndefined;
     searchKeyword := EmptyString; filteredData := 1%nat; active := true;
     triggerRef := true; targetRef := true; trace := [] |}.

(** ** The spec's wording of two contracts, for comparison with the code *)

(** 4.1: a commit "must, in order: (a) update Selection, (b) update
    FocusedValue to match, (c) invoke the selection-notification callback
    with the raw value and the matched Option, (d) invoke the
    change-notification callback with the raw value, (e) close the
    overlay". *)
Definition claimed_commit_effects (v : JSVal) (item : option Item)
    (ev : Event) : list Effect :=
  [ESetValue v; ESetFocusItemValue v; EOnSelect v item ev; EOnChange v ev;
   ETriggerClose].

(** The label of the matched option when it is truthy, else the configured
    placeholder: [selectedElement] before the custom renderer runs. *)
Definition label_or_placeholder (p : Props) (st : Store) : JSVal :=
  if truthy (opt_get (activeItem p st) (labelKey p))
  then opt_get (activeItem p st) (labelKey p)
  else placeholder p.

(** 4.5: "custom-rendered value if present and non-empty; else the matched
    option's label; else the configured placeholder text, falling back to
    a locale-provided default placeholder". *)
Definition claimed_display (p : Props) (st : Store) : JSVal :=
  let custom :=
    match renderValue p with
    | Some render =>
        if isNil (value p st) then VUndefined
        else render (value p st) (activeItem p st) (label_or_placeholder p st)
    | None => VUndefined
    end in
  if truthy custom then custom
  else match activeItem p st with
       | Some item => item_get item (labelKey p)
       | None => js_or (placeholder p) (locale_placeholder p)
       end.

(** ** The rest of the render *)

(** The [toggle] option handed to [useToggleKeyDownEvent] (line 271):
    [!focusItemValue || !active]. *)
Definition keyDown_toggle (st : Store) : bool :=
  negb (truthy (focusItemValue st)) || negb (active st).

(** [a ?? b] *)
Definition js_nullish (a b : JSVal) : JSVal := if isNil a then b else a.

(** The props handed to [PickerToggle] (lines 406-421). *)
Record PickerToggleProps : Type := mkPickerToggleProps {
  pt_disabled : bool;
  pt_cleanable : bool;           (* [cleanable && !disabled] *)
  pt_hasValue : bool;
  pt_inputValue : JSVal;         (* [value ?? ''] *)
  pt_active : bool;
  pt_children : JSVal
}.

Definition renderPickerToggle (p : Props) : M PickerToggleProps :=
  c <- get ;;
  view <- renderToggle p ;;
  ret (mkPickerToggleProps (disabled p) (cleanable p && negb (disabled p))
         (hasValue view) (js_nullish (value p c) (VStr EmptyString))
         (active c) (toggleChildren view)).

(** The props of the component that only the overlay reads. *)
Record OverlayProps : Type := mkOverlayProps {
  id_prop : option string;                 (* [id] *)
  locale_noResultsText : JSVal             (* [locale?.noResultsText] *)
}.

(** The props handed to [DropdownMenu] that depend on the state
    (lines 339-358). *)
Record DropdownMenuProps : Type := mkDropdownMenuProps {
  dm_id : option string;         (* [id ? `${id}-listbox` : undefined] *)
  dm_activeItemValues : list JSVal;
  dm_focusItemValue : JSVal;
  dm_data : MenuData;
  dm_group : bool                (* [!isUndefined(groupBy)] *)
}.

Inductive Menu : Type :=
| DropdownMenu (props : DropdownMenuProps)
| NoResults (text : JSVal).

(** [items.length] *)
Definition items_length (st : Store) (items : MenuData) : nat :=
  match items with
  | FlatData l => length (deref (heap st) l)
  | GroupedData groups => length groups
  end.

(** [const menu = items.length ? <DropdownMenu .../> : <div>...</div>]
    (lines 329-361), after the items have been grouped or sorted. *)
Definition renderMenuElement (p : Props) (o : OverlayProps) : M Menu :=
  c <- get ;;
  items <- renderDropdownMenu p ;;
  now <- get ;;
  if Nat.eqb (items_length now items) 0 then ret (NoResults (locale_noResultsText o))
  else
    ret (DropdownMenu
           (mkDropdownMenuProps
              (match id_prop o with
               | Some i => if String.eqb i EmptyString then None
                           else Some (String.append i "-listbox")
               | None => None
               end)
              [value p c] (focusItemValue c) items (isDefined (groupBy p)))).

(** ** Reading a trace *)

(** The values the value setter was called with, and those [onChange] was
    called with. *)
Definition set_values (es : list Effect) : list JSVal :=
  flat_map (fun e => match e with ESetValue v => [v] | _ => [] end) es.

Definition change_values (es : list Effect) : list JSVal :=
  flat_map (fun e => match e with EOnChange v _ => [v] | _ => [] end) es.

(** A store up to its trace. *)
Definition cells (st : Store) : Store := with_trace [] st.

(** ** Comparators *)

(** ECMAScript's consistent comparator, the one for which the result of
    [Array.prototype.sort] is defined (a stable sort): [compare a b = 0]
    is reflexive, symmetric and transitive, and [compare a b < 0] and
    [compare a b > 0] are transitive. *)
Definition consistent_compare {A} (compare : A -> A -> Z) : Prop :=
  (forall a, compare a a = 0) /\
  (forall a b, compare a b = 0 -> compare b a = 0) /\
  (forall a b c, compare a b = 0 -> compare b c = 0 -> compare a c = 0) /\
  (forall a b c, compare a b < 0 -> compare b c < 0 -> compare a c < 0) /\
  (forall a b c, 0 < compare a b -> 0 < compare b c -> 0 < compare a c).

(** [compare] as applied to the options of a flat menu. *)
Definition item_compare (s : bool -> MenuNode -> MenuNode -> Z)
    (a b : Item) : Z :=
  s false (ItemNode a) (ItemNode b).

(** ** More examples *)

(** [sort = () => (a, b) => num(a) - num(b)], a value that is not a number
    counting as 0. *)
Definition num_value (n : MenuNode) : Z :=
  match n with
  | ItemNode x => match item_get x "value" with VNum m => m | _ => 0 end
  | GroupNode _ _ => 0
  end.

Definition by_num_value (isGroup : bool) (a b : MenuNode) : Z :=
  num_value a - num_value b.

Definition ex_props_sort_num : Props :=
  {| data := 0%nat; valueKey := "value"; labelKey := "label";
     valueProp := VUndefined;
     placeholder := VStr "Pick"; locale_placeholder := VStr "Select";
     disabled := false; cleanable := true;
     groupBy := None; searchBy := None; sort := Some by_num_value;
     renderValue := None;
     onChange := true; onSelect := true; onSearch := true;
     onOpen := true; onClose := true |}.

(** The caller owns the value: [value={1}]. *)
Definition ex_props_controlled : Props :=
  {| data := 0%nat; valueKey := "value"; labelKey := "label";
     valueProp := VNum 1;
     placeholder := VStr "Pick"; locale_placeholder := VStr "Select";
     disabled := false; cleanable := true;
     groupBy := None; searchBy := None; sort := None; renderValue := None;
     onChange := true; onSelect := true; onSearch := true;
     onOpen := true; onClose := true |}.


(** [groupBy = ''] *)
Definition ex_props_empty_groupBy : Props :=
  {| data := 0%nat; valueKey := "value"; labelKey := "label";
     valueProp := VUndefined;
     placeholder := VStr "Pick"; locale_placeholder := VStr "Select";
     disabled := false; cleanable := true;
     groupBy := Some EmptyString; searchBy := None; sort := None;
     renderValue := None;
     onChange := true; onSelect := true; onSearch := true;
     onOpen := true; onClose := true |}.

Definition ex_overlay : OverlayProps :=
  {| id_prop := Some "picker";
     locale_noResultsText := VStr "No results found" |}.

(** The Selection 3 is the value of no option. *)
Definition ex_store_stale : Store :=
  {| heap := {[ 0%nat := [item_one; item_two]; 1%nat := [item_one; item_two] ]};
     uncontrolledValue := VNum 3; focusItemValue := VNum 3;
     searchKeyword := EmptyString; filteredData := 1%nat; active := false;
     triggerRef := true; targetRef := true; trace := [] |}.

(** ** Running the handlers *)

Ltac run :=
  cbv [bind ret get modify emit emit_opt throw setValue setFocusItemValue
       setSearchKeyword setFilteredData setActive handleClose handleSelect
       handleChangeValue with_trace with_heap with_uncontrolledValue
       with_focusItemValue with_searchKeyword with_filteredData with_active
       heap uncontrolledValue focusItemValue searchKeyword filteredData
       active triggerRef targetRef trace opt].

Ltac flags p st :=
  destruct (isControlled p), (onSelect p), (onChange p), (targetRef st),
           (triggerRef st).

Lemma emitted_app {A} (m : M A) (st : Store) (es : list Effect) :
  trace (store_of (m st)) = trace st ++ es -> emitted m st = es.
Proof. intros H. unfold emitted. rewrite H. apply drop_app_length. Qed.

Lemma handleItemSelect_run (p : Props) (v : JSVal) (item : Item) (ev : Event)
    (st : Store) :
  handleItemSelect p v item ev st =
    Ok tt (mkStore (heap st)
             (if isControlled p then uncontrolledValue st else v) v
             (searchKeyword st) (filteredData st) (active st)
             (triggerRef st) (targetRef st)
             (trace st ++ [ESetValue v; ESetFocusItemValue v]
                ++ opt (onSelect p) (EOnSelect v (Some item) ev)
                ++ opt (targetRef st) ETargetFocus
                ++ opt (onChange p) (EOnChange v ev)
                ++ opt (triggerRef st) ETriggerClose)).
Proof.
  unfold handleItemSelect. destruct st as [h u f k fd a tr tg t]. run.
  destruct (isControlled p), (onSelect p), (onChange p), tg, tr;
    cbn; rewrite <- ?app_assoc; reflexivity.
Qed.

Lemma handleMenuPressEnter_run (p : Props) (ev : Event) (st : Store) :
  handleMenuPressEnter p ev st =
    if truthy (focusItemValue st) then
      Ok tt (mkStore (heap st)
               (if isControlled p then uncontrolledValue st else focusItemValue st)
               (focusItemValue st)
               (searchKeyword st) (filteredData st) (active st)
               (triggerRef st) (targetRef st)
               (trace st ++ [ESetValue (focusItemValue st)]
                  ++ opt (onSelect p)
                       (EOnSelect (focusItemValue st)
                          (find_item p st (focusItemValue st)) ev)
                  ++ opt (targetRef st) ETargetFocus
                  ++ opt (onChange p) (EOnChange (focusItemValue st) ev)
                  ++ opt (triggerRef st) ETriggerClose))
    else Ok tt st.
Proof.
  unfold handleMenuPressEnter. destruct st as [h u f k fd a tr tg t]. run.
  destruct (truthy f); cbn; [|reflexivity].
  unfold find_item; cbn.
  destruct (isControlled p), (onSelect p), (onChange p), tg, tr;
    cbn; rewrite <- ?app_assoc; reflexivity.
Qed.

Lemma handleClean_run (p : Props) (ev : Event) (st : Store) :
  handleClean p ev st =
    if disabled p || negb (cleanable p) then Ok tt st
    else
      Ok tt (mkStore (heap st)
               (if isControlled p then uncontrolledValue st else VNull)
               (value p st)
               (searchKeyword st) (filteredData st) (active st)
               (triggerRef st) (targetRef st)
               (trace st ++ [ESetValue VNull; ESetFocusItemValue (value p st)]
                  ++ opt (onChange p) (EOnChange VNull ev))).
Proof.
  unfold handleClean. destruct st as [h u f k fd a tr tg t]. run.
  destruct (disabled p || negb (cleanable p)); cbn; [reflexivity|].
  unfold value; cbn.
  destruct (isControlled p), (onChange p);
    cbn; rewrite <- ?app_assoc; reflexivity.
Qed.

Lemma deref_insert_eq (h : gmap loc (list Item)) (l : loc) (items : list Item) :
  deref (<[l := items]> h) l = items.
Proof. unfold deref. rewrite lookup_insert_eq. reflexivity. Qed.

Lemma find_no_match (key : string) (v : JSVal) (items : list Item) :
  Forall (fun it => item_get it key <> v) items ->
  List.find (fun it => shallowEqual (item_get it key) v) items = None.
Proof.
  induction 1 as [|it items Hne _ IH]; cbn; [reflexivity|].
  unfold shallowEqual at 1. rewrite bool_decide_eq_false_2 by exact Hne.
  exact IH.
Qed.

Lemma find_item_some (p : Props) (st : Store) (v : JSVal) (item : Item) :
  find_item p st v = Some item ->
  In item (deref (heap st) (data p)) /\ item_get item (valueKey p) = v.
Proof.
  unfold find_item. intros H. apply find_some in H as [Hin Heq].
  split; [exact Hin|]. unfold shallowEqual in Heq.
  apply bool_decide_eq_true in Heq. exact Heq.
Qed.

Lemma find_item_exists (p : Props) (st : Store) (v : JSVal) (it : Item) :
  In it (deref (heap st) (data p)) -> item_get it (valueKey p) = v ->
  exists item, find_item p st v = Some item.
Proof.
  intros Hin Hv. unfold find_item.
  destruct (List.find _ _) as [item|] eqn:Hfind; [eauto|].
  pose proof (find_none _ _ Hfind it Hin) as Hno. cbn in Hno.
  unfold shallowEqual in Hno. apply bool_decide_eq_false in Hno.
  contradiction.
Qed.

Lemma activeItem_defined (p : Props) (st : Store) :
  isDefined (activeItem p st) = true <->
  Exists (fun it => item_get it (valueKey p) = value p st)
         (deref (heap st) (data p)).
Proof.
  unfold activeItem. split.
  - destruct (find_item p st (value p st)) as [item|] eqn:Hfind;
      [|discriminate].
    intros _. apply find_item_some in Hfind as [Hin Hv].
    apply List.Exists_exists. exists item. split; assumption.
  - intros Hex. apply List.Exists_exists in Hex as (it & Hin & Hv).
    destruct (find_item_exists p st _ it Hin Hv) as [item ->]. reflexivity.
Qed.

(** ** Committing a selection *)

(** C1 (as amended).  A click on an option calls, in this order, the value
    setter, the FocusedValue setter, [onSelect] with the value and the
    clicked option, [focus()] on the toggle, [onChange] with the value and
    [close()] on the overlay trigger.  Enter with a truthy FocusedValue
    makes the same calls except the FocusedValue setter: FocusedValue
    already is the committed value and stays so.  A callback is called
    only if supplied, a handle only if attached. *)
Theorem commit_calls_in_order (p : Props) (ev : Event) (st : Store) :
  (forall (v : JSVal) (item : Item),
     exists st',
       handleItemSelect p v item ev st = Ok tt st' /\
       emitted (handleItemSelect p v item ev) st =
         [ESetValue v; ESetFocusItemValue v]
           ++ opt (onSelect p) (EOnSelect v (Some item) ev)
           ++ opt (targetRef st) ETargetFocus
           ++ opt (onChange p) (EOnChange v ev)
           ++ opt (triggerRef st) ETriggerClose /\
       value p st' = (if isControlled p then valueProp p else v) /\
       focusItemValue st' = v) /\
  (truthy (focusItemValue st) = true ->
     exists st',
       handleMenuPressEnter p ev st = Ok tt st' /\
       emitted (handleMenuPressEnter p ev) st =
         [ESetValue (focusItemValue st)]
           ++ opt (onSelect p)
                (EOnSelect (focusItemValue st)
                   (find_item p st (focusItemValue st)) ev)
           ++ opt (targetRef st) ETargetFocus
           ++ opt (onChange p) (EOnChange (focusItemValue st) ev)
           ++ opt (triggerRef st) ETriggerClose /\
       value p st' = (if isControlled p then valueProp p else focusItemValue st) /\
       focusItemValue st' = focusItemValue st).
Proof.
  split.
  - intros v item. eexists. split; [apply handleItemSelect_run|].
    split; [|split].
    + apply emitted_app. rewrite handleItemSelect_run. reflexivity.
    + unfold value. cbn. destruct (isControlled p); reflexivity.
    + reflexivity.
  - intros Hf. pose proof (handleMenuPressEnter_run p ev st) as Hrun.
    rewrite Hf in Hrun. eexists. split; [exact Hrun|].
    split; [|split].
    + apply emitted_app. rewrite Hrun. reflexivity.
    + unfold value. cbn. destruct (isControlled p); reflexivity.
    + reflexivity.
Qed.

Lemma commit_calls_in_order_witness :
  truthy (focusItemValue ex_store) = true /\
  exists st',
    handleMenuPressEnter ex_props 0%nat ex_store = Ok tt st' /\
    emitted (handleMenuPressEnter ex_props 0%nat) ex_store =
      [ESetValue (VNum 2); EOnSelect (VNum 2) (Some item_two) 0%nat;
       ETargetFocus; EOnChange (VNum 2) 0%nat; ETriggerClose] /\
    value ex_props st' = VNum 2 /\
    focusItemValue st' = VNum 2.
Proof.
  split; [reflexivity|].
  exact (proj2 (commit_calls_in_order ex_props 0%nat ex_store) eq_refl).
Defined.

(** C1, counterexample.  Option 2 is focused and Enter is pressed: the
    handler makes five calls, none of them the FocusedValue update (b) of
    the claimed sequence, and one of them a call the claim does not list. *)
Lemma enter_commit_is_not_the_claimed_sequence :
  emitted (handleMenuPressEnter ex_props 0%nat) ex_store =
    [ESetValue (VNum 2); EOnSelect (VNum 2) (Some item_two) 0%nat;
     ETargetFocus; EOnChange (VNum 2) 0%nat; ETriggerClose] /\
  emitted (handleMenuPressEnter ex_props 0%nat) ex_store <>
    claimed_commit_effects (VNum 2) (Some item_two) 0%nat /\
  ~ In (ESetFocusItemValue (VNum 2))
       (emitted (handleMenuPressEnter ex_props 0%nat) ex_store).
Proof.
  assert (H : emitted (handleMenuPressEnter ex_props 0%nat) ex_store =
    [ESetValue (VNum 2); EOnSelect (VNum 2) (Some item_two) 0%nat;
     ETargetFocus; EOnChange (VNum 2) 0%nat; ETriggerClose]).
  { apply emitted_app. rewrite handleMenuPressEnter_run. reflexivity. }
  rewrite H. split; [reflexivity|]. split.
  - unfold claimed_commit_effects. intros Heq. discriminate Heq.
  - cbn. intros [Hin|[Hin|[Hin|[Hin|[Hin|[]]]]]]; discriminate Hin.
Qed.

(** ** Clearing *)

(** C2 (as amended).  A clear request while the component is disabled or
    not cleanable returns with the store as it was: Selection is unchanged
    and no call is made, so [onChange] is not invoked.  Otherwise the
    value setter is called with [null] (a Selection the component owns
    becomes [null], one the caller owns stays the [value] prop),
    FocusedValue becomes the Selection of just before, and [onChange], if
    supplied, is called with [null]. *)
Theorem handleClean_spec (p : Props) (ev : Event) (st : Store) :
  (disabled p || negb (cleanable p) = true ->
     handleClean p ev st = Ok tt st) /\
  (disabled p || negb (cleanable p) = false ->
     exists st',
       handleClean p ev st = Ok tt st' /\
       value p st' = (if isControlled p then valueProp p else VNull) /\
       focusItemValue st' = value p st /\
       emitted (handleClean p ev) st =
         [ESetValue VNull; ESetFocusItemValue (value p st)]
           ++ opt (onChange p) (EOnChange VNull ev)).
Proof.
  pose proof (handleClean_run p ev st) as Hrun.
  split; intros Hg; rewrite Hg in Hrun; [exact Hrun|].
  eexists. split; [exact Hrun|]. split; [|split].
  - unfold value. cbn. destruct (isControlled p); reflexivity.
  - reflexivity.
  - apply emitted_app. rewrite Hrun. reflexivity.
Qed.

Lemma handleClean_spec_witness :
  (disabled ex_props_disabled || negb (cleanable ex_props_disabled) = true /\
   handleClean ex_props_disabled 0%nat ex_store = Ok tt ex_store) /\
  (disabled ex_props || negb (cleanable ex_props) = false /\
   exists st',
     handleClean ex_props 0%nat ex_store = Ok tt st' /\
     value ex_props st' = VNull /\
     focusItemValue st' = VNum 1 /\
     emitted (handleClean ex_props 0%nat) ex_store =
       [ESetValue VNull; ESetFocusItemValue (VNum 1); EOnChange VNull 0%nat]).
Proof.
  split; (split; [reflexivity|]).
  - exact (proj1 (handleClean_spec ex_props_disabled 0%nat ex_store) eq_refl).
  - exact (proj2 (handleClean_spec ex_props 0%nat ex_store) eq_refl).
Defined.

(** C2, counterexample.  The caller owns the value ([value={1}]), the
    component is enabled and cleanable: the clear calls the setter and
    [onChange] with [null], and Selection still is 1. *)
Lemma clear_leaves_controlled_selection :
  disabled ex_props_controlled || negb (cleanable ex_props_controlled) = false /\
  exists st',
    handleClean ex_props_controlled 0%nat ex_store = Ok tt st' /\
    emitted (handleClean ex_props_controlled 0%nat) ex_store =
      [ESetValue VNull; ESetFocusItemValue (VNum 1); EOnChange VNull 0%nat] /\
    value ex_props_controlled st' = VNum 1 /\
    value ex_props_controlled st' <> VNull.
Proof.
  split; [reflexivity|]. eexists.
  split; [rewrite handleClean_run; reflexivity|].
  split; [apply emitted_app; rewrite handleClean_run; reflexivity|].
  split; [reflexivity|]. intros H. vm_compute in H. discriminate H.
Qed.

(** C10.  An effective clear calls no notification callback other than
    [onChange]: [onSelect] is not called, [close()] is not called on the
    overlay trigger, and the open flag, the search keyword, the filtered
    array and the array objects are as before. *)
Theorem handleClean_frame (p : Props) (ev : Event) (st : Store) :
  disabled p || negb (cleanable p) = false ->
  exists st',
    handleClean p ev st = Ok tt st' /\
    List.filter is_callback (emitted (handleClean p ev) st) =
      opt (onChange p) (EOnChange VNull ev) /\
    (forall v item e, ~ In (EOnSelect v item e) (emitted (handleClean p ev) st)) /\
    ~ In ETriggerClose (emitted (handleClean p ev) st) /\
    active st' = active st /\
    searchKeyword st' = searchKeyword st /\
    filteredData st' = filteredData st /\
    heap st' = heap st.
Proof.
  intros Hg. pose proof (handleClean_run p ev st) as Hrun. rewrite Hg in Hrun.
  assert (He : emitted (handleClean p ev) st =
                 [ESetValue VNull; ESetFocusItemValue (value p st)]
                   ++ opt (onChange p) (EOnChange VNull ev)).
  { apply emitted_app. rewrite Hrun. reflexivity. }
  eexists. split; [exact Hrun|]. rewrite He.
  repeat split; cbn.
  - destruct (onChange p); reflexivity.
  - intros v item e. destruct (onChange p); cbn; intuition discriminate.
  - destruct (onChange p); cbn; intuition discriminate.
Qed.

Lemma handleClean_frame_witness :
  disabled ex_props || negb (cleanable ex_props) = false /\
  exists st',
    handleClean ex_props 0%nat ex_store = Ok tt st' /\
    List.filter is_callback (emitted (handleClean ex_props 0%nat) ex_store) =
      [EOnChange VNull 0%nat] /\
    (forall v item e,
        ~ In (EOnSelect v item e) (emitted (handleClean ex_props 0%nat) ex_store)) /\
    ~ In ETriggerClose (emitted (handleClean ex_props 0%nat) ex_store) /\
    active st' = true /\
    searchKeyword st' = EmptyString /\
    filteredData st' = 1%nat /\
    heap st' = heap ex_store.
Proof.
  split; [reflexivity|].
  exact (handleClean_frame ex_props 0%nat ex_store eq_refl).
Defined.

(** ** Enter *)

(** C3.  With a null or undefined FocusedValue, Enter returns normally
    with the store as it was: Selection is unchanged and the trace has no
    new call, so neither [onSelect] nor [onChange] is invoked. *)
Theorem enter_without_focus (p : Props) (ev : Event) (st : Store) :
  isNil (focusItemValue st) = true ->
  handleMenuPressEnter p ev st = Ok tt st /\
  value p (store_of (handleMenuPressEnter p ev st)) = value p st /\
  emitted (handleMenuPressEnter p ev) st = [].
Proof.
  intros Hnil. pose proof (handleMenuPressEnter_run p ev st) as Hrun.
  assert (Hf : truthy (focusItemValue st) = false)
    by (destruct (focusItemValue st); (discriminate Hnil || reflexivity)).
  rewrite Hf in Hrun. rewrite Hrun. repeat split.
  apply emitted_app. rewrite Hrun. cbn. symmetry. apply app_nil_r.
Qed.

Lemma enter_without_focus_witness :
  isNil (focusItemValue ex_store_nofocus) = true /\
  handleMenuPressEnter ex_props 0%nat ex_store_nofocus = Ok tt ex_store_nofocus /\
  value ex_props (store_of (handleMenuPressEnter ex_props 0%nat ex_store_nofocus))
    = VNum 1 /\
  emitted (handleMenuPressEnter ex_props 0%nat) ex_store_nofocus = [].
Proof.
  split; [reflexivity|].
  exact (enter_without_focus ex_props 0%nat ex_store_nofocus eq_refl).
Defined.

(** X20.  With a truthy FocusedValue, Enter looks the
    committed option up in [data] by shallow equality on the value field:
    the filtered array plays no part.  When no option of [data] has the
    focused value the handler still returns normally, makes the calls of a
    commit, and [onSelect] receives [undefined] as its option. *)
Theorem enter_looks_up_in_data (p : Props) (ev : Event) (st : Store) :
  truthy (focusItemValue st) = true ->
  let f := focusItemValue st in
  let item :=
    List.find (fun it => shallowEqual (item_get it (valueKey p)) f)
              (deref (heap st) (data p)) in
  returns (handleMenuPressEnter p ev st) = true /\
  emitted (handleMenuPressEnter p ev) st =
    [ESetValue f] ++ opt (onSelect p) (EOnSelect f item ev)
      ++ opt (targetRef st) ETargetFocus
      ++ opt (onChange p) (EOnChange f ev)
      ++ opt (triggerRef st) ETriggerClose /\
  (Forall (fun it => item_get it (valueKey p) <> f) (deref (heap st) (data p)) ->
   item = None) /\
  (forall l, emitted (handleMenuPressEnter p ev) (with_filteredData l st) =
             emitted (handleMenuPressEnter p ev) st) /\
  (forall items, filteredData st <> data p ->
     emitted (handleMenuPressEnter p ev)
             (with_heap (<[filteredData st := items]> (heap st)) st) =
     emitted (handleMenuPressEnter p ev) st).
Proof.
  intros Hf f item.
  assert (Hem : forall st0, truthy (focusItemValue st0) = true ->
            emitted (handleMenuPressEnter p ev) st0 =
              [ESetValue (focusItemValue st0)]
                ++ opt (onSelect p)
                     (EOnSelect (focusItemValue st0)
                        (find_item p st0 (focusItemValue st0)) ev)
                ++ opt (targetRef st0) ETargetFocus
                ++ opt (onChange p) (EOnChange (focusItemValue st0) ev)
                ++ opt (triggerRef st0) ETriggerClose).
  { intros st0 H0. apply emitted_app. rewrite handleMenuPressEnter_run, H0.
    reflexivity. }
  split; [rewrite handleMenuPressEnter_run, Hf; reflexivity|].
  split; [exact (Hem st Hf)|]. split; [|split].
  - intros Hall. subst item. apply find_no_match. exact Hall.
  - intros l. rewrite (Hem st Hf). rewrite Hem by exact Hf. reflexivity.
  - intros items Hne. rewrite (Hem st Hf). rewrite Hem by exact Hf.
    unfold find_item, deref. cbn. rewrite lookup_insert_ne by exact Hne.
    reflexivity.
Qed.

Lemma enter_looks_up_in_data_witness :
  truthy (focusItemValue ex_store_unmatched) = true /\
  returns (handleMenuPressEnter ex_props 0%nat ex_store_unmatched) = true /\
  emitted (handleMenuPressEnter ex_props 0%nat) ex_store_unmatched =
    [ESetValue (VNum 2); EOnSelect (VNum 2) None 0%nat; ETargetFocus;
     EOnChange (VNum 2) 0%nat; ETriggerClose].
Proof.
  pose proof (enter_looks_up_in_data ex_props 0%nat ex_store_unmatched eq_refl)
    as H.
  exact (conj eq_refl (conj (proj1 H) (proj1 (proj2 H)))).
Defined.

(** C9 at FocusedValue = 0.  The focused value is the number 0, which
    is not null and is the value of an option of [data]: Enter returns
    at its guard and commits nothing, where a click on that option
    commits the value 0. *)
Theorem enter_on_value_zero_commits_nothing :
  isNil (focusItemValue ex_store_zero) = false /\
  find_item ex_props ex_store_zero (focusItemValue ex_store_zero) = Some item_zero /\
  handleMenuPressEnter ex_props 0%nat ex_store_zero = Ok tt ex_store_zero /\
  emitted (handleMenuPressEnter ex_props 0%nat) ex_store_zero = [] /\
  emitted (handleItemSelect ex_props (VNum 0) item_zero 0%nat) ex_store_zero =
    [ESetValue (VNum 0); ESetFocusItemValue (VNum 0);
     EOnSelect (VNum 0) (Some item_zero) 0%nat; ETargetFocus;
     EOnChange (VNum 0) 0%nat; ETriggerClose].
Proof.
  repeat split; reflexivity.
Qed.

(** ** Searching *)

Lemma searchCallback_run (p : Props) (kw : string) (fd : option loc)
    (ev : Event) (st : Store) :
  let first := match fd with
               | Some l => head (deref (heap st) l)
               | None => None
               end in
  searchCallback p kw fd ev st =
    Ok tt (mkStore (heap st) (uncontrolledValue st)
             (opt_get first (valueKey p))
             (searchKeyword st) (filteredData st) (active st)
             (triggerRef st) (targetRef st)
             (trace st ++ [ESetFocusItemValue (opt_get first (valueKey p))]
                ++ opt (onSearch p) (EOnSearch kw ev))).
Proof.
  unfold searchCallback. destruct st as [h u f k fdl a tr tg t]. run.
  destruct (onSearch p); cbn; rewrite <- ?app_assoc; reflexivity.
Qed.

(** Called with a keyword, the new filtered array and the event, the
    search callback sets FocusedValue to the value field of the first
    option of that array, or to the absent value ([undefined]) when the
    array is empty, and then calls [onSearch], if supplied, with the
    keyword and the event; Selection and the keyword are untouched. *)
Theorem search_callback_focuses_first (p : Props) (kw : string) (fd : loc)
    (ev : Event) (st : Store) :
  exists st',
    searchCallback p kw (Some fd) ev st = Ok tt st' /\
    focusItemValue st' =
      match deref (heap st) fd with
      | first :: _ => item_get first (valueKey p)
      | [] => VUndefined
      end /\
    emitted (searchCallback p kw (Some fd) ev) st =
      [ESetFocusItemValue (focusItemValue st')]
        ++ opt (onSearch p) (EOnSearch kw ev) /\
    value p st' = value p st /\
    searchKeyword st' = searchKeyword st.
Proof.
  eexists. split; [apply searchCallback_run|]. cbn.
  repeat split.
  - destruct (deref (heap st) fd); reflexivity.
  - apply emitted_app. rewrite searchCallback_run. reflexivity.
Qed.

(** A keyword change, with the hook calling the callback: the filtered
    array of the state is a new array holding the matching options of
    [data], the arrays that existed keep their contents, and FocusedValue
    is the value of the first match. *)
Lemma handleSearch_effects (shouldDisplay : JSVal -> string -> bool)
    (p : Props) (kw : string) (ev : Event) (st : Store) :
  let found := List.filter (checkShouldDisplay shouldDisplay p kw)
                           (deref (heap st) (data p)) in
  exists st',
    handleSearch shouldDisplay p kw ev st = Ok tt st' /\
    (filteredData st' ∉ dom (heap st)) /\
    deref (heap st') (filteredData st') = found /\
    (forall l, l ∈ dom (heap st) -> deref (heap st') l = deref (heap st) l) /\
    searchKeyword st' = kw /\
    focusItemValue st' = opt_get (head found) (valueKey p) /\
    List.filter is_callback (emitted (handleSearch shouldDisplay p kw ev) st) =
      opt (onSearch p) (EOnSearch kw ev).
Proof.
  intros found.
  assert (Hrun : handleSearch shouldDisplay p kw ev st =
    Ok tt (mkStore (<[fresh (dom (heap st)) := found]> (heap st))
             (uncontrolledValue st) (opt_get (head found) (valueKey p)) kw
             (fresh (dom (heap st))) (active st) (triggerRef st) (targetRef st)
             (trace st ++ [ESetFilteredData (fresh (dom (heap st)));
                           ESetSearchKeyword kw;
                           ESetFocusItemValue (opt_get (head found) (valueKey p))]
                ++ opt (onSearch p) (EOnSearch kw ev)))).
  { unfold handleSearch, searchCallback, alloc.
    destruct st as [h u f k fd a tr tg t]. run. cbn beta iota.
    rewrite deref_insert_eq.
    destruct (onSearch p); cbn; rewrite <- ?app_assoc; reflexivity. }
  eexists. split; [exact Hrun|]. cbn. split; [apply is_fresh|].
  split; [apply deref_insert_eq|].
  split.
  { intros l Hl. unfold deref. rewrite lookup_insert_ne; [reflexivity|].
    intros Heq. apply (is_fresh (dom (heap st))). rewrite Heq. exact Hl. }
  split; [reflexivity|]. split; [reflexivity|].
  erewrite emitted_app by (rewrite Hrun; reflexivity).
  destruct (onSearch p); reflexivity.
Qed.






(** ** Opening and closing the overlay *)

Lemma handleEntered_run (p : Props) (st : Store) :
  handleEntered p st =
    Ok tt (mkStore (heap st) (uncontrolledValue st) (value p st)
             (searchKeyword st) (filteredData st) true
             (triggerRef st) (targetRef st)
             (trace st ++ [ESetActive true; ESetFocusItemValue (value p st)]
                ++ opt (onOpen p) EOnOpen)).
Proof.
  unfold handleEntered. destruct st as [h u f k fd a tr tg t]. run.
  unfold value; cbn.
  destruct (onOpen p); cbn; rewrite <- ?app_assoc; reflexivity.
Qed.

Lemma handleExited_run (p : Props) (st : Store) :
  handleExited p st =
    Ok tt (mkStore (heap st) (uncontrolledValue st) (focusItemValue st)
             EmptyString (filteredData st) false
             (triggerRef st) (targetRef st)
             (trace st ++ [ESetSearchKeyword EmptyString; ESetActive false]
                ++ opt (onClose p) EOnClose)).
Proof.
  unfold handleExited. destruct st as [h u f k fd a tr tg t]. run.
  destruct (onClose p); cbn; rewrite <- ?app_assoc; reflexivity.
Qed.

(** C7 (as amended).  When the overlay has opened, [handleEntered] sets
    the open flag, sets FocusedValue to the current Selection and calls
    [onOpen] if supplied.  When it has closed, [handleExited] resets the
    search keyword to the empty string, clears the open flag and calls
    [onClose] if supplied; it leaves FocusedValue as it is.  FocusedValue
    is set to [null] by the [onClose] hook handed to the keyboard
    dispatcher. *)
Theorem overlay_open_close (p : Props) (st : Store) :
  (exists st',
     handleEntered p st = Ok tt st' /\
     focusItemValue st' = value p st /\
     active st' = true /\
     emitted (handleEntered p) st =
       [ESetActive true; ESetFocusItemValue (value p st)]
         ++ opt (onOpen p) EOnOpen) /\
  (exists st',
     handleExited p st = Ok tt st' /\
     searchKeyword st' = EmptyString /\
     active st' = false /\
     focusItemValue st' = focusItemValue st /\
     emitted (handleExited p) st =
       [ESetSearchKeyword EmptyString; ESetActive false]
         ++ opt (onClose p) EOnClose) /\
  (exists st',
     toggleKeyDown_onClose st = Ok tt st' /\
     focusItemValue st' = VNull /\
     searchKeyword st' = searchKeyword st /\
     emitted toggleKeyDown_onClose st = [ESetFocusItemValue VNull]).
Proof.
  split; [|split].
  - eexists. split; [apply handleEntered_run|]. repeat split.
    apply emitted_app. rewrite handleEntered_run. reflexivity.
  - eexists. split; [apply handleExited_run|]. repeat split.
    apply emitted_app. rewrite handleExited_run. reflexivity.
  - eexists. split; [reflexivity|]. repeat split.
    apply emitted_app. reflexivity.
Qed.

(** C7, counterexample.  The overlay closes while option 2 is focused (an
    outside click, say): after [handleExited] FocusedValue still is 2. *)
Lemma exit_keeps_focused_value :
  exists st',
    handleExited ex_props ex_store = Ok tt st' /\
    searchKeyword st' = EmptyString /\
    focusItemValue st' = VNum 2 /\
    isNil (focusItemValue st') = false /\
    ~ (exists v, In (ESetFocusItemValue v) (emitted (handleExited ex_props) ex_store)).
Proof.
  eexists. split; [reflexivity|]. repeat split.
  intros [v Hin]. cbn in Hin.
  destruct Hin as [H|[H|[H|[]]]]; discriminate H.
Qed.

(** ** The toggle *)

Lemma renderToggle_run (p : Props) (st : Store) :
  let sel0 := label_or_placeholder p st in
  let invoked := negb (isNil (value p st)) && isFunction (renderValue p) in
  let sel :=
    match renderValue p with
    | Some render =>
        if isNil (value p st) then sel0
        else render (value p st) (activeItem p st) sel0
    | None => sel0
    end in
  renderToggle p st =
    Ok (mkToggleView
          ((isDefined (activeItem p st) || invoked) && negb (invoked && isNil sel))
          sel (js_or sel (locale_placeholder p)))
       (with_trace
          (trace st ++
             if invoked
             then [ERenderValue (value p st) (activeItem p st) sel0]
             else [])
          st).
Proof.
  unfold renderToggle, label_or_placeholder.
  destruct st as [h u f k fd a tr tg t].
  set (st := mkStore h u f k fd a tr tg t). run. cbn beta iota.
  destruct (activeItem p st) as [item|] eqn:Hact; cbn;
    [destruct (truthy (item_get item (labelKey p))); cbn|];
    destruct (isNil (value p st)); cbn;
    destruct (renderValue p) as [render|]; cbn;
    try (destruct (isNil (render _ _ _)); cbn);
    rewrite ?app_nil_r; reflexivity.
Qed.

(** C5.  [hasValue] is computed in two passes.  The first pass gives
    true exactly when Selection is the value of an option of [data], or
    Selection is not nil and [renderValue] is supplied.  The displayed
    element is computed next, [renderValue] being called, once, exactly
    when Selection is not nil and it is supplied; the option it is handed
    is an option of [data] carrying the Selection, or [undefined] when
    there is none.  The second pass turns [hasValue] to false exactly
    when [renderValue] was called and returned [null] or [undefined]; in
    every other case the first value stands. *)
Theorem hasValue_two_pass (p : Props) (st : Store) :
  let matched :=
    Exists (fun it => item_get it (valueKey p) = value p st)
           (deref (heap st) (data p)) in
  let invoked := negb (isNil (value p st)) && isFunction (renderValue p) in
  exists view st',
    renderToggle p st = Ok view st' /\
    ((invoked = false /\ emitted (renderToggle p) st = []) \/
     (exists render item element,
        invoked = true /\ renderValue p = Some render /\
        emitted (renderToggle p) st = [ERenderValue (value p st) item element] /\
        selectedElement view = render (value p st) item element /\
        match item with
        | Some it => In it (deref (heap st) (data p)) /\
                     item_get it (valueKey p) = value p st
        | None => ~ matched
        end)) /\
    (hasValue view = true <->
     (matched \/ invoked = true) /\
     ~ (invoked = true /\ isNil (selectedElement view) = true)).
Proof.
  intros matched invoked.
  pose proof (renderToggle_run p st) as Hrun. cbv zeta in Hrun.
  fold invoked in Hrun.
  eexists. eexists. split; [exact Hrun|]. split.
  - erewrite emitted_app by (rewrite Hrun; reflexivity).
    cbn [selectedElement].
    destruct (renderValue p) as [render|] eqn:Hr;
      destruct (isNil (value p st)) eqn:Hn; subst invoked; cbn;
      try (left; split; reflexivity).
    right. exists render, (activeItem p st), (label_or_placeholder p st).
    repeat split.
    destruct (activeItem p st) as [it|] eqn:Hact.
    + apply (find_item_some p st _ it). exact Hact.
    + subst matched. rewrite <- activeItem_defined, Hact. discriminate.
  - cbn [hasValue selectedElement]. subst matched.
    rewrite <- activeItem_defined.
    destruct (isDefined (activeItem p st)), invoked, (isNil _);
      cbn; split; intuition discriminate.
Qed.

(** Option 1 is selected and is an option of [data], and the custom
    renderer returns [null]: the second pass turns [hasValue] to false. *)
Lemma hasValue_two_pass_witness :
  Exists (fun it => item_get it (valueKey ex_props_render_null)
                    = value ex_props_render_null ex_store)
         (deref (heap ex_store) (data ex_props_render_null)) /\
  exists view st',
    renderToggle ex_props_render_null ex_store = Ok view st' /\
    emitted (renderToggle ex_props_render_null) ex_store =
      [ERenderValue (VNum 1) (Some item_one) (VStr "One")] /\
    selectedElement view = VNull /\
    hasValue view = false.
Proof.
  split; [left; reflexivity|].
  destruct (hasValue_two_pass ex_props_render_null ex_store)
    as (view & st' & Hrun & Hcall & Hiff).
  destruct Hcall as [[Hno _]|(render & item & element & _ & Hr & Hem & Hsel & _)];
    [discriminate Hno|].
  injection Hr as <-.
  assert (Hsame : emitted (renderToggle ex_props_render_null) ex_store =
            [ERenderValue (VNum 1) (Some item_one) (VStr "One")])
    by (apply emitted_app; rewrite renderToggle_run; reflexivity).
  exists view, st'. split; [exact Hrun|]. split; [exact Hsame|].
  split; [exact Hsel|].
  destruct (hasValue view) eqn:Hhv; [|reflexivity].
  exfalso. destruct (proj1 Hiff eq_refl) as [_ Hnot].
  apply Hnot. split; [reflexivity|]. rewrite Hsel. reflexivity.
Defined.

(** C8 (as amended).  When [renderValue] is supplied and Selection is not
    nil, the toggle shows the render result if it is truthy and the
    locale's default placeholder otherwise.  In every other case it shows
    the matched option's label if there is a match with a truthy label,
    else the configured placeholder if truthy, else the locale's default
    placeholder. *)
Theorem displayed_content (p : Props) (st : Store) :
  exists view st',
    renderToggle p st = Ok view st' /\
    toggleChildren view =
      match renderValue p with
      | Some render =>
          if isNil (value p st)
          then js_or (label_or_placeholder p st) (locale_placeholder p)
          else js_or (render (value p st) (activeItem p st)
                        (label_or_placeholder p st))
                     (locale_placeholder p)
      | None => js_or (label_or_placeholder p st) (locale_placeholder p)
      end.
Proof.
  pose proof (renderToggle_run p st) as Hrun. cbv zeta in Hrun.
  eexists. eexists. split; [exact Hrun|]. cbn.
  destruct (renderValue p); [destruct (isNil (value p st))|]; reflexivity.
Qed.

(** C8, counterexample.  Option 1 ("One") is selected, the placeholder
    "Pick" is configured and the custom renderer returns [null]: the
    toggle shows the locale's "Select", where the claimed priority gives
    the matched label "One". *)
Lemma empty_render_result_shows_locale_placeholder :
  exists view st',
    renderToggle ex_props_render_null ex_store = Ok view st' /\
    toggleChildren view = VStr "Select" /\
    claimed_display ex_props_render_null ex_store = VStr "One" /\
    toggleChildren view <> claimed_display ex_props_render_null ex_store.
Proof.
  eexists. eexists. split; [apply renderToggle_run|].
  split; [reflexivity|]. split; [reflexivity|].
  intros H. vm_compute in H. discriminate H.
Qed.

(** ** The menu *)

Lemma renderDropdownMenu_grouped (p : Props) (g : string) (st : Store) :
  groupBy_set p = Some g ->
  renderDropdownMenu p st =
    Ok (GroupedData (getDataGroupBy (deref (heap st) (filteredData st)) g (sort p)))
       st.
Proof. intros Hg. unfold renderDropdownMenu. run. rewrite Hg. reflexivity. Qed.

Lemma renderDropdownMenu_plain (p : Props) (st : Store) :
  groupBy_set p = None -> sort p = None ->
  renderDropdownMenu p st = Ok (FlatData (filteredData st)) st.
Proof.
  intros Hg Hs. unfold renderDropdownMenu. run. rewrite Hg, Hs. reflexivity.
Qed.

Lemma renderDropdownMenu_sorted (p : Props)
    (s : bool -> MenuNode -> MenuNode -> Z) (st : Store) :
  groupBy_set p = None -> sort p = Some s ->
  renderDropdownMenu p st =
    Ok (FlatData (filteredData st))
       (with_heap
          (alter (js_sort (fun a b => s false (ItemNode a) (ItemNode b)))
                 (filteredData st) (heap st))
          st).
Proof.
  intros Hg Hs. unfold renderDropdownMenu, array_sort. run.
  rewrite Hg, Hs. reflexivity.
Qed.

(** The flat sort rewrites the filtered array of the state, and no other
    array. *)
Lemma renderDropdownMenu_sorted_arrays (p : Props)
    (s : bool -> MenuNode -> MenuNode -> Z) (st : Store) :
  groupBy_set p = None -> sort p = Some s ->
  let st' := store_of (renderDropdownMenu p st) in
  filteredData st' = filteredData st /\
  deref (heap st') (filteredData st) =
    js_sort (fun a b => s false (ItemNode a) (ItemNode b))
            (deref (heap st) (filteredData st)) /\
  (forall l, l <> filteredData st -> deref (heap st') l = deref (heap st) l).
Proof.
  intros Hg Hs. rewrite (renderDropdownMenu_sorted p s st Hg Hs). cbn.
  split; [reflexivity|]. split.
  - unfold deref. rewrite lookup_alter_eq.
    destruct (heap st !! filteredData st); reflexivity.
  - intros l Hl. unfold deref. rewrite lookup_alter_ne by congruence.
    reflexivity.
Qed.

(** C6 at [data = [two, one]] with [sort = () => (a, b) => a.value - b.value]
    and no [groupBy]: rendering the menu leaves [data] alone but reorders
    the filtered array held in the state, which is the very array the menu
    is given. *)
Theorem render_sorts_filtered_state_in_place :
  deref (heap ex_store_unsorted) (filteredData ex_store_unsorted) =
    [item_two; item_one] /\
  exists st',
    renderDropdownMenu ex_props_sort ex_store_unsorted =
      Ok (FlatData (filteredData ex_store_unsorted)) st' /\
    filteredData st' = filteredData ex_store_unsorted /\
    deref (heap st') (filteredData st') = [item_one; item_two] /\
    deref (heap st') (data ex_props_sort) = [item_two; item_one].
Proof.
  split; [reflexivity|]. eexists.
  split; [apply (renderDropdownMenu_sorted _ by_value); reflexivity|].
  repeat split; reflexivity.
Qed.

(** ** Further properties of the handlers *)

Lemma emitted_nil {A} (m : M A) (st : Store) :
  store_of (m st) = st -> emitted m st = [].
Proof.
  intros H. apply emitted_app. rewrite H. symmetry. apply app_nil_r.
Qed.

(** X1.  Enter always returns normally, and it commits exactly when
    FocusedValue is truthy: with a falsy FocusedValue (null, undefined,
    0, the empty string) no call is made and the store is as before;
    otherwise the first call is the value setter with FocusedValue. *)
Theorem enter_commits_iff_truthy (p : Props) (ev : Event) (st : Store) :
  returns (handleMenuPressEnter p ev st) = true /\
  match emitted (handleMenuPressEnter p ev) st with
  | [] => truthy (focusItemValue st) = false /\
          store_of (handleMenuPressEnter p ev st) = st
  | e :: _ => truthy (focusItemValue st) = true /\
              e = ESetValue (focusItemValue st)
  end.
Proof.
  pose proof (handleMenuPressEnter_run p ev st) as Hrun.
  destruct (truthy (focusItemValue st)) eqn:Hf.
  - split; [rewrite Hrun; reflexivity|].
    erewrite emitted_app by (rewrite Hrun; reflexivity).
    cbn. split; reflexivity.
  - split; [rewrite Hrun; reflexivity|].
    rewrite emitted_nil by (rewrite Hrun; reflexivity).
    rewrite Hrun. split; reflexivity.
Qed.

(** X2.  Enter on a focused option of [data] and a click on that option
    agree: they leave the same store, make the same callback calls, and
    differ only by the FocusedValue setter call of the click. *)
Theorem enter_agrees_with_click (p : Props) (ev : Event) (st : Store)
    (item : Item) :
  truthy (focusItemValue st) = true ->
  find_item p st (focusItemValue st) = Some item ->
  exists s1 s2,
    handleMenuPressEnter p ev st = Ok tt s1 /\
    handleItemSelect p (focusItemValue st) item ev st = Ok tt s2 /\
    cells s1 = cells s2 /\
    List.filter is_callback (emitted (handleMenuPressEnter p ev) st) =
      List.filter is_callback
        (emitted (handleItemSelect p (focusItemValue st) item ev) st) /\
    emitted (handleItemSelect p (focusItemValue st) item ev) st =
      ESetValue (focusItemValue st) :: ESetFocusItemValue (focusItemValue st)
        :: tail (emitted (handleMenuPressEnter p ev) st).
Proof.
  intros Hf Hitem.
  pose proof (handleMenuPressEnter_run p ev st) as Hrun.
  rewrite Hf, Hitem in Hrun.
  eexists. eexists. split; [exact Hrun|].
  split; [apply handleItemSelect_run|].
  erewrite (emitted_app (handleMenuPressEnter p ev))
    by (rewrite Hrun; reflexivity).
  erewrite (emitted_app (handleItemSelect p _ item ev))
    by (rewrite handleItemSelect_run; reflexivity).
  repeat split.
Qed.

Lemma enter_agrees_with_click_witness :
  truthy (focusItemValue ex_store) = true /\
  find_item ex_props ex_store (focusItemValue ex_store) = Some item_two /\
  exists s1 s2,
    handleMenuPressEnter ex_props 0%nat ex_store = Ok tt s1 /\
    handleItemSelect ex_props (VNum 2) item_two 0%nat ex_store = Ok tt s2 /\
    cells s1 = cells s2 /\
    List.filter is_callback (emitted (handleMenuPressEnter ex_props 0%nat) ex_store) =
      List.filter is_callback
        (emitted (handleItemSelect ex_props (VNum 2) item_two 0%nat) ex_store) /\
    emitted (handleItemSelect ex_props (VNum 2) item_two 0%nat) ex_store =
      ESetValue (VNum 2) :: ESetFocusItemValue (VNum 2)
        :: tail (emitted (handleMenuPressEnter ex_props 0%nat) ex_store).
Proof.
  split; [reflexivity|]. split; [reflexivity|].
  exact (enter_agrees_with_click ex_props 0%nat ex_store item_two eq_refl eq_refl).
Defined.

(** X3.  Searching, then Enter: when the new filtered array starts with
    an option of [data] whose value is truthy, Enter commits that value,
    and the option handed to [onSelect] is an option of [data] carrying
    that value. *)
Theorem search_then_enter_commits_first (p : Props) (kw : string) (fd : loc)
    (ev ev' : Event) (st : Store) (first : Item) (rest : list Item) :
  deref (heap st) fd = first :: rest ->
  truthy (item_get first (valueKey p)) = true ->
  In first (deref (heap st) (data p)) ->
  exists st1 st2 item,
    searchCallback p kw (Some fd) ev st = Ok tt st1 /\
    handleMenuPressEnter p ev' st1 = Ok tt st2 /\
    In item (deref (heap st) (data p)) /\
    item_get item (valueKey p) = item_get first (valueKey p) /\
    emitted (handleMenuPressEnter p ev') st1 =
      [ESetValue (item_get first (valueKey p))]
        ++ opt (onSelect p) (EOnSelect (item_get first (valueKey p)) (Some item) ev')
        ++ opt (targetRef st) ETargetFocus
        ++ opt (onChange p) (EOnChange (item_get first (valueKey p)) ev')
        ++ opt (triggerRef st) ETriggerClose.
Proof.
  intros Hfd Hv Hin.
  pose proof (searchCallback_run p kw (Some fd) ev st) as Hs.
  cbv beta iota zeta in Hs. rewrite Hfd in Hs. cbn [head opt_get] in Hs.
  set (st1 := mkStore _ _ _ _ _ _ _ _ _) in Hs.
  destruct (find_item_exists p st1 (item_get first (valueKey p)) first Hin eq_refl)
    as [item Hitem].
  destruct (find_item_some p st1 _ item Hitem) as [Hin' Hv'].
  pose proof (handleMenuPressEnter_run p ev' st1) as He.
  change (focusItemValue st1) with (item_get first (valueKey p)) in He.
  rewrite Hv, Hitem in He.
  eexists. eexists. exists item. split; [exact Hs|]. split; [exact He|].
  split; [exact Hin'|]. split; [exact Hv'|].
  apply emitted_app. rewrite He. reflexivity.
Qed.

Lemma search_then_enter_commits_first_witness :
  deref (heap ex_store) 1%nat = item_one :: [item_two] /\
  truthy (item_get item_one (valueKey ex_props)) = true /\
  In item_one (deref (heap ex_store) (data ex_props)) /\
  exists st1 st2 item,
    searchCallback ex_props "o" (Some 1%nat) 0%nat ex_store = Ok tt st1 /\
    handleMenuPressEnter ex_props 1%nat st1 = Ok tt st2 /\
    In item (deref (heap ex_store) (data ex_props)) /\
    item_get item "value" = VNum 1 /\
    emitted (handleMenuPressEnter ex_props 1%nat) st1 =
      [ESetValue (VNum 1); EOnSelect (VNum 1) (Some item) 1%nat; ETargetFocus;
       EOnChange (VNum 1) 1%nat; ETriggerClose].
Proof.
  split; [reflexivity|]. split; [reflexivity|].
  split; [left; reflexivity|].
  exact (search_then_enter_commits_first ex_props "o" 1%nat 0%nat 1%nat ex_store
           item_one [item_two] eq_refl eq_refl (or_introl eq_refl)).
Defined.

(** X4.  Searching, then Enter: when the callback is handed no array or
    an empty one, FocusedValue becomes [undefined] and a following Enter
    makes no call at all and leaves the store as the search left it. *)
Theorem empty_search_then_enter_is_noop (p : Props) (kw : string)
    (fd : option loc) (ev ev' : Event) (st : Store) :
  match fd with Some l => deref (heap st) l = [] | None => True end ->
  exists st1,
    searchCallback p kw fd ev st = Ok tt st1 /\
    focusItemValue st1 = VUndefined /\
    handleMenuPressEnter p ev' st1 = Ok tt st1 /\
    emitted (handleMenuPressEnter p ev') st1 = [].
Proof.
  intros Hfd.
  pose proof (searchCallback_run p kw fd ev st) as Hs. cbv zeta in Hs.
  assert (Hfirst : match fd with
                   | Some l => head (deref (heap st) l)
                   | None => None
                   end = None)
    by (destruct fd; [rewrite Hfd|]; reflexivity).
  rewrite Hfirst in Hs. cbn [opt_get] in Hs.
  set (st1 := mkStore _ _ _ _ _ _ _ _ _) in Hs.
  assert (He : handleMenuPressEnter p ev' st1 = Ok tt st1)
    by (rewrite handleMenuPressEnter_run; reflexivity).
  exists st1. split; [exact Hs|]. split; [reflexivity|]. split; [exact He|].
  apply emitted_nil. rewrite He. reflexivity.
Qed.

Lemma empty_search_then_enter_is_noop_witness :
  deref (heap ex_store_nofocus) 1%nat = [] /\
  exists st1,
    searchCallback ex_props "xyz" (Some 1%nat) 0%nat ex_store_nofocus = Ok tt st1 /\
    focusItemValue st1 = VUndefined /\
    handleMenuPressEnter ex_props 1%nat st1 = Ok tt st1 /\
    emitted (handleMenuPressEnter ex_props 1%nat) st1 = [].
Proof.
  split; [reflexivity|].
  exact (empty_search_then_enter_is_noop ex_props "xyz" (Some 1%nat) 0%nat 1%nat
           ex_store_nofocus eq_refl).
Defined.

(** X5.  The value setter and [onChange] go together: in each of the
    three handlers that change the Selection, the values given to the
    setter are the values given to a supplied [onChange]; opening,
    closing and searching call neither. *)
Theorem setter_and_onChange_agree (p : Props) (v : JSVal) (item : Item)
    (kw : string) (fd : option loc) (ev : Event) (st : Store) :
  onChange p = true ->
  (set_values (emitted (handleItemSelect p v item ev) st) =
     change_values (emitted (handleItemSelect p v item ev) st) /\
   set_values (emitted (handleMenuPressEnter p ev) st) =
     change_values (emitted (handleMenuPressEnter p ev) st) /\
   set_values (emitted (handleClean p ev) st) =
     change_values (emitted (handleClean p ev) st)) /\
  (set_values (emitted (handleEntered p) st) = [] /\
   change_values (emitted (handleEntered p) st) = [] /\
   set_values (emitted (handleExited p) st) = [] /\
   change_values (emitted (handleExited p) st) = [] /\
   set_values (emitted (searchCallback p kw fd ev) st) = [] /\
   change_values (emitted (searchCallback p kw fd ev) st) = []).
Proof.
  intros Hc. split; [split; [|split]|].
  - erewrite emitted_app by (rewrite handleItemSelect_run; reflexivity).
    rewrite Hc. destruct (onSelect p), (targetRef st), (triggerRef st);
      reflexivity.
  - pose proof (handleMenuPressEnter_run p ev st) as Hrun.
    destruct (truthy (focusItemValue st)).
    + erewrite emitted_app by (rewrite Hrun; reflexivity).
      rewrite Hc. destruct (onSelect p), (targetRef st), (triggerRef st);
        reflexivity.
    + rewrite emitted_nil by (rewrite Hrun; reflexivity). reflexivity.
  - pose proof (handleClean_run p ev st) as Hrun.
    destruct (disabled p || negb (cleanable p)).
    + rewrite emitted_nil by (rewrite Hrun; reflexivity). reflexivity.
    + erewrite emitted_app by (rewrite Hrun; reflexivity).
      rewrite Hc. reflexivity.
  - erewrite (emitted_app (handleEntered p))
      by (rewrite handleEntered_run; reflexivity).
    erewrite (emitted_app (handleExited p))
      by (rewrite handleExited_run; reflexivity).
    erewrite (emitted_app (searchCallback p kw fd ev))
      by (rewrite searchCallback_run; reflexivity).
    destruct (onOpen p), (onClose p), (onSearch p); repeat split.
Qed.

Lemma setter_and_onChange_agree_witness :
  onChange ex_props = true /\
  set_values (emitted (handleItemSelect ex_props (VNum 2) item_two 0%nat) ex_store) =
    [VNum 2] /\
  change_values (emitted (handleItemSelect ex_props (VNum 2) item_two 0%nat) ex_store) =
    [VNum 2] /\
  set_values (emitted (handleClean ex_props 0%nat) ex_store) =
    change_values (emitted (handleClean ex_props 0%nat) ex_store).
Proof.
  pose proof (setter_and_onChange_agree ex_props (VNum 2) item_two EmptyString
                None 0%nat ex_store eq_refl) as H.
  split; [reflexivity|]. split; [reflexivity|].
  split; [exact (eq_sym (proj1 (proj1 H)))|].
  exact (proj2 (proj2 (proj1 H))).
Defined.

(** X6.  The keyboard dispatcher's [toggle] option after the overlay
    lifecycle handlers: once the overlay has exited it is true whatever is
    focused; once the overlay has entered it is true exactly when the
    Selection is falsy. *)
Theorem keyDown_toggle_after_open_close (p : Props) (st : Store) :
  keyDown_toggle (store_of (handleExited p st)) = true /\
  keyDown_toggle (store_of (handleEntered p st)) = negb (truthy (value p st)).
Proof.
  rewrite handleExited_run, handleEntered_run. unfold keyDown_toggle. cbn.
  split; [apply orb_true_r|apply orb_false_r].
Qed.

(** X7.  A click on an option, the overlay closing and opening again: the
    keyword is empty, the overlay is marked open and FocusedValue is the
    Selection, which is the clicked value when the component owns the
    value and the [value] prop when the caller does. *)
Theorem commit_close_reopen (p : Props) (v : JSVal) (item : Item)
    (ev : Event) (st : Store) :
  exists s1 s2 s3,
    handleItemSelect p v item ev st = Ok tt s1 /\
    handleExited p s1 = Ok tt s2 /\
    handleEntered p s2 = Ok tt s3 /\
    value p s3 = (if isControlled p then valueProp p else v) /\
    focusItemValue s3 = value p s3 /\
    searchKeyword s3 = EmptyString /\
    active s3 = true.
Proof.
  eexists. eexists. eexists.
  split; [apply handleItemSelect_run|].
  split; [apply handleExited_run|].
  split; [apply handleEntered_run|].
  unfold value. cbn. destruct (isControlled p); repeat split.
Qed.

(** X8.  An effective clear leaves the cleared Selection focused: when
    that Selection was truthy, Enter pressed next commits it again. *)
Theorem clear_then_enter_recommits (p : Props) (ev ev' : Event) (st : Store) :
  disabled p || negb (cleanable p) = false ->
  truthy (value p st) = true ->
  exists s1 s2,
    handleClean p ev st = Ok tt s1 /\
    handleMenuPressEnter p ev' s1 = Ok tt s2 /\
    head (emitted (handleMenuPressEnter p ev') s1) = Some (ESetValue (value p st)) /\
    value p s2 = value p st.
Proof.
  intros Hg Hv. pose proof (handleClean_run p ev st) as Hc. rewrite Hg in Hc.
  set (s1 := mkStore _ _ _ _ _ _ _ _ _) in Hc.
  pose proof (handleMenuPressEnter_run p ev' s1) as He.
  change (focusItemValue s1) with (value p st) in He. rewrite Hv in He.
  eexists. eexists. split; [exact Hc|]. split; [exact He|]. split.
  - erewrite emitted_app by (rewrite He; reflexivity). reflexivity.
  - unfold value. cbn. destruct (isControlled p); reflexivity.
Qed.

Lemma clear_then_enter_recommits_witness :
  disabled ex_props || negb (cleanable ex_props) = false /\
  truthy (value ex_props ex_store) = true /\
  exists s1 s2,
    handleClean ex_props 0%nat ex_store = Ok tt s1 /\
    handleMenuPressEnter ex_props 1%nat s1 = Ok tt s2 /\
    head (emitted (handleMenuPressEnter ex_props 1%nat) s1) =
      Some (ESetValue (VNum 1)) /\
    value ex_props s2 = VNum 1.
Proof.
  split; [reflexivity|]. split; [reflexivity|].
  exact (clear_then_enter_recommits ex_props 0%nat 1%nat ex_store eq_refl eq_refl).
Defined.

(** ** Further properties of the toggle *)

(** X9.  Rendering the toggle never throws (the label of the matched
    option is only read when there is a matched option), changes no state
    cell, and calls the custom renderer at most once. *)
Theorem renderToggle_safe (p : Props) (st : Store) :
  returns (renderToggle p st) = true /\
  cells (store_of (renderToggle p st)) = cells st /\
  (length (emitted (renderToggle p) st) <= 1)%nat.
Proof.
  pose proof (renderToggle_run p st) as Hrun. cbv zeta in Hrun.
  split; [rewrite Hrun; reflexivity|]. split.
  - rewrite Hrun. destruct st; reflexivity.
  - erewrite emitted_app by (rewrite Hrun; reflexivity).
    destruct (negb (isNil (value p st)) && isFunction (renderValue p)); cbn; lia.
Qed.

(** X10.  Without a custom renderer, [hasValue] is true exactly when some
    option of [data] carries the Selection in its value field. *)
Theorem hasValue_iff_some_option (p : Props) (st : Store) :
  renderValue p = None ->
  exists view st',
    renderToggle p st = Ok view st' /\
    (hasValue view = true <->
     Exists (fun it => item_get it (valueKey p) = value p st)
            (deref (heap st) (data p))).
Proof.
  intros Hr. pose proof (renderToggle_run p st) as Hrun. cbv zeta in Hrun.
  eexists. eexists. split; [exact Hrun|]. cbn.
  rewrite <- activeItem_defined. rewrite Hr. cbn.
  rewrite !andb_false_r, orb_false_r, andb_true_r. reflexivity.
Qed.

Lemma hasValue_iff_some_option_witness :
  renderValue ex_props = None /\
  exists view st',
    renderToggle ex_props ex_store = Ok view st' /\
    (hasValue view = true <->
     Exists (fun it => item_get it "value" = VNum 1) [item_one; item_two]).
Proof.
  split; [reflexivity|].
  exact (hasValue_iff_some_option ex_props ex_store eq_refl).
Defined.

(** X11.  A Selection that is the value of no option, and no custom
    renderer: [hasValue] is false and the toggle shows the configured
    placeholder if it is truthy, the locale's placeholder otherwise. *)
Theorem unmatched_selection_shows_placeholder (p : Props) (st : Store) :
  renderValue p = None ->
  Forall (fun it => item_get it (valueKey p) <> value p st)
         (deref (heap st) (data p)) ->
  exists view st',
    renderToggle p st = Ok view st' /\
    hasValue view = false /\
    toggleChildren view = js_or (placeholder p) (locale_placeholder p).
Proof.
  intros Hr Hall. pose proof (renderToggle_run p st) as Hrun.
  cbv zeta in Hrun. unfold label_or_placeholder in Hrun.
  assert (Hact : activeItem p st = None)
    by (unfold activeItem, find_item; apply find_no_match; exact Hall).
  rewrite Hact, Hr in Hrun. cbn in Hrun.
  rewrite !andb_false_r in Hrun. cbn in Hrun.
  eexists. eexists. split; [exact Hrun|]. split; reflexivity.
Qed.

Lemma unmatched_selection_shows_placeholder_witness :
  renderValue ex_props = None /\
  Forall (fun it => item_get it (valueKey ex_props) <> value ex_props ex_store_stale)
         (deref (heap ex_store_stale) (data ex_props)) /\
  exists view st',
    renderToggle ex_props ex_store_stale = Ok view st' /\
    hasValue view = false /\
    toggleChildren view = VStr "Pick".
Proof.
  assert (Hall : Forall (fun it => item_get it (valueKey ex_props)
                                   <> value ex_props ex_store_stale)
                        (deref (heap ex_store_stale) (data ex_props))).
  { repeat constructor; intros H; vm_compute in H; discriminate H. }
  split; [reflexivity|]. split; [exact Hall|].
  exact (unmatched_selection_shows_placeholder ex_props ex_store_stale eq_refl Hall).
Defined.

(** X12.  With a custom renderer and a Selection that is not nil, the
    render result alone decides what the toggle reports and shows:
    [hasValue] is true exactly when the result is not nil, and the toggle
    shows the result if it is truthy and the locale's placeholder
    otherwise, matched option or not. *)
Theorem custom_renderer_decides (p : Props) (st : Store)
    (render : JSVal -> option Item -> JSVal -> JSVal) :
  renderValue p = Some render ->
  isNil (value p st) = false ->
  exists view st',
    renderToggle p st = Ok view st' /\
    selectedElement view =
      render (value p st) (activeItem p st) (label_or_placeholder p st) /\
    hasValue view = negb (isNil (selectedElement view)) /\
    toggleChildren view =
      (if truthy (selectedElement view) then selectedElement view
       else locale_placeholder p).
Proof.
  intros Hr Hv. pose proof (renderToggle_run p st) as Hrun.
  cbv zeta in Hrun. rewrite Hr, Hv in Hrun. cbn in Hrun.
  eexists. eexists. split; [exact Hrun|]. cbn.
  split; [reflexivity|]. split; [|reflexivity].
  rewrite orb_true_r. reflexivity.
Qed.

Lemma custom_renderer_decides_witness :
  renderValue ex_props_render_null = Some (fun _ _ _ => VNull) /\
  isNil (value ex_props_render_null ex_store) = false /\
  exists view st',
    renderToggle ex_props_render_null ex_store = Ok view st' /\
    selectedElement view = VNull /\
    hasValue view = negb (isNil (selectedElement view)) /\
    toggleChildren view =
      (if truthy (selectedElement view) then selectedElement view
       else VStr "Select").
Proof.
  split; [reflexivity|]. split; [reflexivity|].
  exact (custom_renderer_decides ex_props_render_null ex_store
           (fun _ _ _ => VNull) eq_refl eq_refl).
Defined.

(** X13.  Clearing, then rendering: when the component owns the value
    and no option has the value [null], after an effective clear the
    toggle reports no value, shows the placeholder, and the custom
    renderer, supplied or not, is not called. *)
Theorem clear_then_render_shows_placeholder (p : Props) (ev : Event)
    (st : Store) :
  isControlled p = false ->
  disabled p || negb (cleanable p) = false ->
  Forall (fun it => item_get it (valueKey p) <> VNull)
         (deref (heap st) (data p)) ->
  exists s1 view s2,
    handleClean p ev st = Ok tt s1 /\
    renderToggle p s1 = Ok view s2 /\
    hasValue view = false /\
    toggleChildren view = js_or (placeholder p) (locale_placeholder p) /\
    emitted (renderToggle p) s1 = [].
Proof.
  intros Hc Hg Hall. pose proof (handleClean_run p ev st) as Hclean.
  rewrite Hg, Hc in Hclean.
  set (s1 := mkStore _ _ _ _ _ _ _ _ _) in Hclean.
  assert (Hval : value p s1 = VNull) by (unfold value; rewrite Hc; reflexivity).
  assert (Hact : activeItem p s1 = None).
  { unfold activeItem, find_item. rewrite Hval. apply find_no_match.
    exact Hall. }
  pose proof (renderToggle_run p s1) as Hrun. cbv zeta in Hrun.
  unfold label_or_placeholder in Hrun. rewrite Hact, Hval in Hrun.
  remember (renderToggle p s1) as R eqn:HR. cbn in Hrun. subst R.
  assert (Hsel : match renderValue p with
                 | Some _ => placeholder p
                 | None => placeholder p
                 end = placeholder p) by (destruct (renderValue p); reflexivity).
  rewrite Hsel in Hrun.
  eexists. eexists. eexists. split; [exact Hclean|]. split; [exact Hrun|].
  split; [reflexivity|]. split; [reflexivity|].
  apply emitted_app. rewrite Hrun. reflexivity.
Qed.

Lemma clear_then_render_shows_placeholder_witness :
  isControlled ex_props = false /\
  disabled ex_props || negb (cleanable ex_props) = false /\
  Forall (fun it => item_get it (valueKey ex_props) <> VNull)
         (deref (heap ex_store) (data ex_props)) /\
  exists s1 view s2,
    handleClean ex_props 0%nat ex_store = Ok tt s1 /\
    renderToggle ex_props s1 = Ok view s2 /\
    hasValue view = false /\
    toggleChildren view = VStr "Pick" /\
    emitted (renderToggle ex_props) s1 = [].
Proof.
  assert (Hall : Forall (fun it => item_get it (valueKey ex_props) <> VNull)
                        (deref (heap ex_store) (data ex_props))).
  { repeat constructor; intros H; vm_compute in H; discriminate H. }
  split; [reflexivity|]. split; [reflexivity|]. split; [exact Hall|].
  exact (clear_then_render_shows_placeholder ex_props 0%nat ex_store
           eq_refl eq_refl Hall).
Defined.

Lemma renderPickerToggle_run (p : Props) (st : Store) :
  exists view st',
    renderToggle p st = Ok view st' /\
    renderPickerToggle p st =
      Ok (mkPickerToggleProps (disabled p) (cleanable p && negb (disabled p))
            (hasValue view) (js_nullish (value p st) (VStr EmptyString))
            (active st) (toggleChildren view))
         st'.
Proof.
  pose proof (renderToggle_run p st) as Hrun. cbv zeta in Hrun.
  eexists. eexists. split; [exact Hrun|].
  unfold renderPickerToggle, bind, get. rewrite Hrun. reflexivity.
Qed.

(** X14.  The toggle is told it is cleanable exactly when a clear request
    would take effect: [cleanable && !disabled] on the toggle and the
    guard of [handleClean] never disagree. *)
Theorem clear_affordance_matches_handler (p : Props) (ev : Event) (st : Store) :
  exists pt st',
    renderPickerToggle p st = Ok pt st' /\
    match emitted (handleClean p ev) st with
    | [] => pt_cleanable pt = false
    | _ :: _ => pt_cleanable pt = true
    end.
Proof.
  destruct (renderPickerToggle_run p st) as (view & st' & _ & Hpt).
  eexists. eexists. split; [exact Hpt|]. cbn [pt_cleanable].
  pose proof (handleClean_run p ev st) as Hrun.
  destruct (disabled p), (cleanable p); cbn [orb negb andb] in Hrun |- *.
  all: try (rewrite emitted_nil by (rewrite Hrun; reflexivity); reflexivity).
  erewrite emitted_app by (rewrite Hrun; reflexivity). reflexivity.
Qed.

(** ** Further properties of the menu *)

Lemma sort_insert_perm {A} (compare : A -> A -> Z) (x : A) (l : list A) :
  sort_insert compare x l ≡ₚ x :: l.
Proof.
  induction l as [|y r IH]; cbn; [reflexivity|].
  destruct (Z.leb (compare x y) 0); [reflexivity|].
  rewrite IH. apply Permutation_swap.
Qed.

Lemma js_sort_perm {A} (compare : A -> A -> Z) (l : list A) :
  js_sort compare l ≡ₚ l.
Proof.
  induction l as [|x l IH]; cbn; [reflexivity|].
  rewrite sort_insert_perm. rewrite IH. reflexivity.
Qed.

Lemma sort_insert_HdRel {A} (compare : A -> A -> Z) (x y : A) (l : list A) :
  compare y x <= 0 ->
  HdRel (fun a b => compare a b <= 0) y l ->
  HdRel (fun a b => compare a b <= 0) y (sort_insert compare x l).
Proof.
  intros Hyx Hhd. destruct l as [|z r]; cbn; [constructor; exact Hyx|].
  destruct (Z.leb (compare x z) 0); constructor; [exact Hyx|].
  inversion Hhd; assumption.
Qed.

Lemma consistent_compare_total {A} (compare : A -> A -> Z) :
  consistent_compare compare ->
  forall a b, 0 < compare a b -> compare b a <= 0.
Proof.
  intros (Hrefl & Hsym & _ & _ & Hgt) a b Hab.
  destruct (Z.lt_trichotomy (compare b a) 0) as [Hlt|[Heq|Hgt']]; [lia|lia|].
  pose proof (Hgt a b a Hab Hgt') as Haa. rewrite Hrefl in Haa. lia.
Qed.

Lemma sort_insert_sorted {A} (compare : A -> A -> Z) (x : A) (l : list A) :
  consistent_compare compare ->
  Sorted (fun a b => compare a b <= 0) l ->
  Sorted (fun a b => compare a b <= 0) (sort_insert compare x l).
Proof.
  intros Hc Hs. induction Hs as [|y r Hr IH Hhd]; cbn.
  - repeat constructor.
  - destruct (Z.leb (compare x y) 0) eqn:Hle.
    + apply Z.leb_le in Hle. repeat constructor; assumption.
    + apply Z.leb_gt in Hle. constructor; [exact IH|].
      apply sort_insert_HdRel;
        [apply (consistent_compare_total compare Hc); exact Hle|exact Hhd].
Qed.

Lemma js_sort_sorted {A} (compare : A -> A -> Z) (l : list A) :
  consistent_compare compare ->
  Sorted (fun a b => compare a b <= 0) (js_sort compare l).
Proof.
  intros Hc. induction l as [|x l IH]; cbn; [constructor|].
  apply sort_insert_sorted; assumption.
Qed.

Lemma js_sort_of_sorted {A} (compare : A -> A -> Z) (l : list A) :
  Sorted (fun a b => compare a b <= 0) l -> js_sort compare l = l.
Proof.
  induction 1 as [|x l Hl IH Hhd]; cbn; [reflexivity|].
  unfold js_sort in IH. rewrite IH. destruct Hhd as [|y r Hxy]; cbn;
    [reflexivity|].
  apply Z.leb_le in Hxy. rewrite Hxy. reflexivity.
Qed.

Lemma alter_sorted_twice (compare : Item -> Item -> Z) (l : loc)
    (h : gmap loc (list Item)) :
  consistent_compare compare ->
  alter (js_sort compare) l (alter (js_sort compare) l h) =
  alter (js_sort compare) l h.
Proof.
  intros Hc. apply map_eq. intros i.
  destruct (decide (i = l)) as [->|Hne].
  - rewrite !lookup_alter_eq. destruct (h !! l) as [items|]; cbn; [|reflexivity].
    f_equal. apply js_sort_of_sorted. apply js_sort_sorted. exact Hc.
  - rewrite !lookup_alter_ne by congruence. reflexivity.
Qed.

(** X15.  A flat sort keeps the options: the menu is handed the filtered
    array of the state itself, whose new contents are a rearrangement of
    the old ones, and every other array, [data] included when it is
    another array, keeps its contents. *)
Theorem sort_rearranges_filtered_array (p : Props)
    (s : bool -> MenuNode -> MenuNode -> Z) (st : Store) :
  groupBy_set p = None -> sort p = Some s ->
  exists st',
    renderDropdownMenu p st = Ok (FlatData (filteredData st)) st' /\
    deref (heap st') (filteredData st) ≡ₚ deref (heap st) (filteredData st) /\
    (forall l, l <> filteredData st -> deref (heap st') l = deref (heap st) l) /\
    cells (with_heap (heap st) st') = cells st.
Proof.
  intros Hg Hs.
  pose proof (renderDropdownMenu_sorted p s st Hg Hs) as Hrun.
  pose proof (renderDropdownMenu_sorted_arrays p s st Hg Hs) as Harr.
  cbv zeta in Harr. rewrite Hrun in Harr. cbn [store_of] in Harr.
  destruct Harr as (_ & Hsorted & Hother).
  eexists. split; [exact Hrun|]. split; [|split].
  - rewrite Hsorted. apply js_sort_perm.
  - exact Hother.
  - destruct st; reflexivity.
Qed.

Lemma by_num_value_consistent :
  forall s, sort ex_props_sort_num = Some s -> consistent_compare (item_compare s).
Proof.
  intros s Hs. injection Hs as <-.
  repeat split; unfold item_compare, by_num_value; intros; lia.
Defined.

Lemma sort_rearranges_filtered_array_witness :
  groupBy_set ex_props_sort_num = None /\
  sort ex_props_sort_num = Some by_num_value /\
  exists st',
    renderDropdownMenu ex_props_sort_num ex_store_unsorted = Ok (FlatData 1%nat) st' /\
    deref (heap st') 1%nat ≡ₚ [item_two; item_one] /\
    (forall l, l <> 1%nat ->
       deref (heap st') l = deref (heap ex_store_unsorted) l) /\
    cells (with_heap (heap ex_store_unsorted) st') = cells ex_store_unsorted.
Proof.
  split; [reflexivity|]. split; [reflexivity|].
  exact (sort_rearranges_filtered_array ex_props_sort_num by_num_value
           ex_store_unsorted eq_refl eq_refl).
Defined.

(** X16.  With a consistent comparator, a flat sort leaves the filtered
    array in order: each option is at or before the next one in the
    comparator's order. *)
Theorem sorted_menu_is_ordered (p : Props)
    (s : bool -> MenuNode -> MenuNode -> Z) (st : Store) :
  groupBy_set p = None -> sort p = Some s ->
  consistent_compare (item_compare s) ->
  Sorted (fun a b => item_compare s a b <= 0)
         (deref (heap (store_of (renderDropdownMenu p st))) (filteredData st)).
Proof.
  intros Hg Hs Hc.
  destruct (renderDropdownMenu_sorted_arrays p s st Hg Hs) as (_ & Hsorted & _).
  rewrite Hsorted. apply (js_sort_sorted (item_compare s)). exact Hc.
Qed.

Lemma sorted_menu_is_ordered_witness :
  groupBy_set ex_props_sort_num = None /\
  sort ex_props_sort_num = Some by_num_value /\
  consistent_compare (item_compare by_num_value) /\
  Sorted (fun a b => item_compare by_num_value a b <= 0)
         (deref (heap (store_of (renderDropdownMenu ex_props_sort_num
                                   ex_store_unsorted)))
                (filteredData ex_store_unsorted)).
Proof.
  split; [reflexivity|]. split; [reflexivity|].
  split; [exact (by_num_value_consistent by_num_value eq_refl)|].
  exact (sorted_menu_is_ordered ex_props_sort_num by_num_value ex_store_unsorted
           eq_refl eq_refl (by_num_value_consistent by_num_value eq_refl)).
Defined.

(** X17.  Rendering the menu again changes nothing more: with a
    consistent comparator (or none), a second render returns the same
    items and leaves the store as the first render left it. *)
Theorem render_menu_twice (p : Props) (st : Store) :
  (forall s, sort p = Some s -> consistent_compare (item_compare s)) ->
  renderDropdownMenu p (store_of (renderDropdownMenu p st)) =
  renderDropdownMenu p st.
Proof.
  intros Hc. destruct (groupBy_set p) as [g|] eqn:Hg.
  - rewrite (renderDropdownMenu_grouped p g st Hg). cbn [store_of].
    apply renderDropdownMenu_grouped. exact Hg.
  - destruct (sort p) as [s|] eqn:Hs.
    + rewrite (renderDropdownMenu_sorted p s st Hg Hs). cbn [store_of].
      rewrite (renderDropdownMenu_sorted p s _ Hg Hs).
      destruct st as [h u f k fd a tr tg t]. cbn.
      rewrite (alter_sorted_twice (item_compare s)) by (apply Hc; reflexivity).
      reflexivity.
    + rewrite (renderDropdownMenu_plain p st Hg Hs). cbn [store_of].
      apply renderDropdownMenu_plain; assumption.
Qed.

Lemma render_menu_twice_witness :
  (forall s, sort ex_props_sort_num = Some s -> consistent_compare (item_compare s)) /\
  renderDropdownMenu ex_props_sort_num
    (store_of (renderDropdownMenu ex_props_sort_num ex_store_unsorted)) =
  renderDropdownMenu ex_props_sort_num ex_store_unsorted.
Proof.
  split; [exact by_num_value_consistent|].
  exact (render_menu_twice ex_props_sort_num ex_store_unsorted
           by_num_value_consistent).
Defined.

Lemma renderMenuElement_flat (p : Props) (o : OverlayProps) (st : Store) :
  groupBy_set p = None ->
  exists st',
    renderMenuElement p o st =
      Ok (if Nat.eqb (length (deref (heap st) (filteredData st))) 0
          then NoResults (locale_noResultsText o)
          else DropdownMenu
                 (mkDropdownMenuProps
                    (match id_prop o with
                     | Some i => if String.eqb i EmptyString then None
                                 else Some (String.append i "-listbox")
                     | None => None
                     end)
                    [value p st] (focusItemValue st)
                    (FlatData (filteredData st)) (isDefined (groupBy p))))
         st'.
Proof.
  intros Hg. unfold renderMenuElement, bind, get.
  destruct (sort p) as [s|] eqn:Hs.
  - rewrite (renderDropdownMenu_sorted p s st Hg Hs).
    destruct (renderDropdownMenu_sorted_arrays p s st Hg Hs) as (_ & Hsorted & _).
    rewrite (renderDropdownMenu_sorted p s st Hg Hs) in Hsorted.
    cbn [store_of] in Hsorted. cbn [items_length]. rewrite Hsorted.
    rewrite (Permutation_length (js_sort_perm _ _)).
    eexists. destruct (Nat.eqb _ 0); reflexivity.
  - rewrite (renderDropdownMenu_plain p st Hg Hs). cbn [items_length].
    eexists. destruct (Nat.eqb _ 0); reflexivity.
Qed.

(** X18.  Without grouping, sorted or not, the "no results" text stands
    in for the menu exactly when the filtered array is empty; otherwise
    the menu is handed the filtered array of the state, the Selection as
    its only active value and the FocusedValue. *)
Theorem no_results_iff_filtered_empty (p : Props) (o : OverlayProps)
    (st : Store) :
  groupBy_set p = None ->
  exists menu st',
    renderMenuElement p o st = Ok menu st' /\
    match menu with
    | NoResults text =>
        deref (heap st) (filteredData st) = [] /\
        text = locale_noResultsText o
    | DropdownMenu props =>
        deref (heap st) (filteredData st) <> [] /\
        dm_data props = FlatData (filteredData st) /\
        dm_activeItemValues props = [value p st] /\
        dm_focusItemValue props = focusItemValue st
    end.
Proof.
  intros Hg. destruct (renderMenuElement_flat p o st Hg) as [st' Hrun].
  eexists. eexists. split; [exact Hrun|].
  destruct (deref (heap st) (filteredData st)) as [|it items]; cbn.
  - split; reflexivity.
  - repeat split. discriminate.
Qed.

Lemma no_results_iff_filtered_empty_witness :
  groupBy_set ex_props = None /\
  exists menu st',
    renderMenuElement ex_props ex_overlay ex_store_nofocus = Ok menu st' /\
    match menu with
    | NoResults text =>
        deref (heap ex_store_nofocus) (filteredData ex_store_nofocus) = [] /\
        text = VStr "No results found"
    | DropdownMenu props =>
        deref (heap ex_store_nofocus) (filteredData ex_store_nofocus) <> [] /\
        dm_data props = FlatData (filteredData ex_store_nofocus) /\
        dm_activeItemValues props = [value ex_props ex_store_nofocus] /\
        dm_focusItemValue props = focusItemValue ex_store_nofocus
    end.
Proof.
  split; [reflexivity|].
  exact (no_results_iff_filtered_empty ex_props ex_overlay ex_store_nofocus eq_refl).
Defined.

(** X19.  An empty-string [groupBy] does not group: the menu is handed
    the flat filtered array, and yet it is told [group = true]. *)
Theorem empty_groupBy_is_flat_but_flagged (p : Props) (o : OverlayProps)
    (st : Store) :
  groupBy p = Some EmptyString ->
  deref (heap st) (filteredData st) <> [] ->
  exists props st',
    renderMenuElement p o st = Ok (DropdownMenu props) st' /\
    dm_data props = FlatData (filteredData st) /\
    dm_group props = true.
Proof.
  intros Hgb Hne.
  assert (Hg : groupBy_set p = None) by (unfold groupBy_set; rewrite Hgb; reflexivity).
  destruct (renderMenuElement_flat p o st Hg) as [st' Hrun].
  destruct (deref (heap st) (filteredData st)) as [|it items];
    [contradiction|].
  cbn [length Nat.eqb] in Hrun.
  eexists. eexists. split; [exact Hrun|]. cbn.
  split; [reflexivity|]. rewrite Hgb. reflexivity.
Qed.

Lemma empty_groupBy_is_flat_but_flagged_witness :
  groupBy ex_props_empty_groupBy = Some EmptyString /\
  deref (heap ex_store) (filteredData ex_store) <> [] /\
  exists props st',
    renderMenuElement ex_props_empty_groupBy ex_overlay ex_store =
      Ok (DropdownMenu props) st' /\
    dm_data props = FlatData (filteredData ex_store) /\
    dm_group props = true.
Proof.
  assert (Hne : deref (heap ex_store) (filteredData ex_store) <> [])
    by (intros H; vm_compute in H; discriminate H).
  split; [reflexivity|]. split; [exact Hne|].
  exact (empty_groupBy_is_flat_but_flagged ex_props_empty_groupBy ex_overlay
           ex_store eq_refl Hne).
Defined.
